(** * LiteTable.js: the table engine, the virtual-scroll engine and the
      server-side fetch engine, embedded and verified.

    Conventions of the embedding.

    - A JavaScript number that counts rows, pages or pixels is an integer and
      is modelled in [Z].  For a non-zero divisor [b], [Math.floor(a / b)] is
      [a / b] ([Z.div] rounds towards minus infinity) and [Math.ceil(a / b)]
      is [- ((- a) / b)].  Division by zero (which yields an infinity or NaN
      in JavaScript) and NaN are outside the model; the statements that
      depend on a quotient assume a non-zero divisor.
    - Types are erased at run time, so a row ([TData]) is a JavaScript
      value, [JsValue].
    - The host's string primitives that depend on the locale
      ([toLowerCase], [localeCompare], the text of a [Date]) are the fields
      of the class [Host].
    - [Array.prototype.sort] is stable; it is modelled by the stable
      insertion sort [array_sort], called with the comparator's number, after
      the [undefined] elements have been set aside for the end.
    - The callbacks a caller supplies (accessors, comparators, predicates,
      the hooks of the fetch engine) are total functions: they return and
      do not throw.
    - Listeners are observers: they receive snapshots and do not call back
      into the instance, so the table records the emitted events in a log. *)

From Stdlib Require Import ZArith List Bool.
From stdpp Require Import base tactics option list strings gmap pretty.

Local Open Scope Z_scope.
Set Warnings "-register-all".

(** ** JavaScript values and the array primitives the code relies on *)

Module Js.

Inductive JsValue : Type :=
  | JUndefined
  | JNull
  | JString (s : string)
  | JNumber (n : Z)
  | JBoolean (b : bool)
  | JDate (time : Z)
  | JObject (fields : list (string * JsValue)).

(** The locale-dependent primitives of the host. *)
Class Host := {
  toLowerCase : string → string;
  localeCompare : string → string → Z;
  dateToString : Z → string;
}.

(** [v == null] *)
Definition is_nullish (v : JsValue) : bool :=
  match v with
  | JUndefined | JNull => true
  | _ => false
  end.

(** [typeof v === 'object' && v !== null] *)
Definition is_object (v : JsValue) : bool :=
  match v with
  | JDate _ | JObject _ => true
  | _ => false
  end.

Fixpoint lookup_field (key : string) (fields : list (string * JsValue)) : JsValue :=
  match fields with
  | [] => JUndefined
  | (k, v) :: rest => if String.eqb k key then v else lookup_field key rest
  end.

(** [v[key]] for a value that passed [is_object]. *)
Definition get_prop (v : JsValue) (key : string) : JsValue :=
  match v with
  | JObject fields => lookup_field key fields
  | _ => JUndefined
  end.

(** [String(v)] *)
Definition to_String `{Host} (v : JsValue) : string :=
  match v with
  | JUndefined => "undefined"
  | JNull => "null"
  | JString s => s
  | JNumber n => pretty n
  | JBoolean true => "true"
  | JBoolean false => "false"
  | JDate t => dateToString t
  | JObject _ => "[object Object]"
  end.

(** [Number(b)] for a boolean. *)
Definition Number_of_bool (b : bool) : Z := if b then 1 else 0.

(** [!s] for a string: the empty string is falsy. *)
Definition string_falsy (s : string) : bool := String.eqb s "".

Fixpoint is_prefix (p s : string) : bool :=
  match p, s with
  | EmptyString, _ => true
  | String a p', String b s' => Ascii.eqb a b && is_prefix p' s'
  | String _ _, EmptyString => false
  end.

(** [s.includes(sub)] *)
Fixpoint includes (s sub : string) : bool :=
  is_prefix sub s ||
  match s with
  | EmptyString => false
  | String _ s' => includes s' sub
  end.

(** [Math.ceil(a / b)] *)
Definition ceil_div (a b : Z) : Z := - ((- a) / b).

(** [arr.slice(start, end)]: a negative bound counts from the end, and both
    bounds are clamped into [0, arr.length]. *)
Definition slice {A} (arr : list A) (start_ end_ : Z) : list A :=
  let len := Z.of_nat (length arr) in
  let k := if start_ <? 0 then Z.max (len + start_) 0 else Z.min start_ len in
  let final := if end_ <? 0 then Z.max (len + end_) 0 else Z.min end_ len in
  take (Z.to_nat (final - k)) (drop (Z.to_nat k) arr).

(** [arr.find((x, index) => p(x, index))] *)
Fixpoint find_from {A} (p : A → nat → bool) (index : nat) (arr : list A) : option A :=
  match arr with
  | [] => None
  | x :: rest => if p x index then Some x else find_from p (S index) rest
  end.

Definition find_indexed {A} (p : A → nat → bool) (arr : list A) : option A :=
  find_from p 0%nat arr.

(** [arr.sort(cmp)] on a copy: one step places [x], which stood before the
    elements of [sorted], in front of the first element it does not follow. *)
Fixpoint sort_insert {A} (cmp : A → A → Z) (x : A) (sorted : list A) : list A :=
  match sorted with
  | [] => [x]
  | y :: rest =>
      if cmp x y <=? 0 then x :: y :: rest else y :: sort_insert cmp x rest
  end.

Definition array_sort {A} (cmp : A → A → Z) (arr : list A) : list A :=
  foldr (sort_insert cmp) [] arr.

(** [v === undefined] *)
Definition is_undefined (v : JsValue) : bool :=
  match v with
  | JUndefined => true
  | _ => false
  end.

(** [arr.sort(cmp)] on an array of values: the elements that are
    [undefined] go to the end without a call of [cmp], the others are
    sorted. *)
Definition sort_values (cmp : JsValue → JsValue → Z) (arr : list JsValue)
    : list JsValue :=
  array_sort cmp (filter (λ v, is_undefined v = false) arr)
  ++ filter (λ v, is_undefined v = true) arr.

End Js.

(** ** Core types (types.ts) *)

Module Types.
Import Js.

Inductive Direction : Type := asc | desc.

(** ['asc' | 'desc' | null]; an omitted argument is [None] as well. *)
Definition SortDirection : Type := option Direction.

Record Column : Type := {
  id : string;
  header : string;
  accessor : option (JsValue → JsValue);
  sortable : option bool;
  sortFn : option (JsValue → JsValue → SortDirection → Z);
  filterable : option bool;
  hidden : option bool;
}.

Record SortState : Type := {
  columnId : option string;
  direction : SortDirection;
}.

Record PaginationState : Type := {
  page : Z;
  pageSize : Z;
  pageSizeOptions : list Z;
  totalRows : Z;
  totalPages : Z;
  startIndex : Z;
  endIndex : Z;
  hasPrevPage : bool;
  hasNextPage : bool;
}.

(** [Partial<PaginationConfig>] *)
Record PaginationConfig : Type := {
  cfg_page : option Z;
  cfg_pageSize : option Z;
  cfg_pageSizeOptions : option (list Z);
}.

(** The [pagination] option: absent, a boolean, or a partial config. *)
Inductive PaginationOption : Type :=
  | PaginationAbsent
  | PaginationBool (enabled : bool)
  | PaginationPartial (config : PaginationConfig).

Record TableOptions : Type := {
  data : list JsValue;
  columns : list Column;
  pagination : PaginationOption;
  searchable : option bool;
  filterFn : option (JsValue → string → list Column → bool);
  multiSort : option bool;
  defaultSort : option SortState;
  getRowId : option (JsValue → nat → string);
}.

Record TableState : Type := {
  originalData : list JsValue;
  filteredData : list JsValue;
  sortedData : list JsValue;
  paginatedData : list JsValue;
  sortState : SortState;
  searchTerm : string;
  paginationState : option PaginationState;
  hiddenColumns : gset string;
}.

Inductive TableEventType : Type :=
  | ev_sort | ev_search | ev_paginate | ev_columnToggle | ev_reset.

End Types.

(** ** Utility functions (utils.ts) *)

Module Utils.
Import Js Types.

Section WithHost.
Context `{Host}.

Definition getCellValue (row : JsValue) (column : Column) : JsValue :=
  match accessor column with
  | Some f => f row
  | None =>
      if is_object row then
        match get_prop row (id column) with
        | JUndefined => JNull
        | value => value
        end
      else JNull
  end.

Definition signed (direction : SortDirection) (result : Z) : Z :=
  match direction with
  | Some asc => result
  | _ => - result
  end.

Definition compareValues (a b : JsValue) (direction : SortDirection) : Z :=
  if is_nullish a && is_nullish b then 0
  else if is_nullish a then 1
  else if is_nullish b then -1
  else
    match a, b with
    | JString sa, JString sb =>
        signed direction (localeCompare (toLowerCase sa) (toLowerCase sb))
    | JNumber na, JNumber nb =>
        match direction with
        | Some asc => na - nb
        | _ => nb - na
        end
    | JDate ta, JDate tb => signed direction (ta - tb)
    | JBoolean ba, JBoolean bb =>
        signed direction (Number_of_bool ba - Number_of_bool bb)
    | _, _ =>
        signed direction
          (localeCompare (toLowerCase (to_String a)) (toLowerCase (to_String b)))
    end.

Fixpoint any_column_matches (row : JsValue) (lowerSearch : string)
    (columns : list Column) : bool :=
  match columns with
  | [] => false
  | column :: rest =>
      match filterable column with
      | Some false => any_column_matches row lowerSearch rest
      | _ =>
          let value := getCellValue row column in
          if is_nullish value then any_column_matches row lowerSearch rest
          else if includes (toLowerCase (to_String value)) lowerSearch then true
          else any_column_matches row lowerSearch rest
      end
  end.

Definition defaultFilterFn (row : JsValue) (searchTerm : string)
    (columns : list Column) : bool :=
  if string_falsy searchTerm then true
  else any_column_matches row (toLowerCase searchTerm) columns.

Definition default_pageSizeOptions : list Z := [10; 25; 50; 100].

Definition createPaginationState (page pageSize totalRows : Z)
    (pageSizeOptions : option (list Z)) : PaginationState :=
  let totalPages := Z.max 1 (ceil_div totalRows pageSize) in
  let safePage := Z.min (Z.max 1 page) totalPages in
  let startIndex := (safePage - 1) * pageSize in
  let endIndex := Z.min (startIndex + pageSize) totalRows in
  {| Types.page := safePage;
     Types.pageSize := pageSize;
     Types.pageSizeOptions := default default_pageSizeOptions pageSizeOptions;
     Types.totalRows := totalRows;
     Types.totalPages := totalPages;
     Types.startIndex := startIndex;
     Types.endIndex := endIndex;
     hasPrevPage := 1 <? safePage;
     hasNextPage := safePage <? totalPages |}.

Definition generateRowId (row : JsValue) (index : nat) : string :=
  let fallback := ("row-" +:+ pretty index)%string in
  if is_object row then
    match get_prop row "id" with
    | JString s => s
    | JNumber n => pretty n
    | _ => fallback
    end
  else fallback.

End WithHost.
End Utils.

(** ** The table engine (table.ts) *)

Module Table.
Import Js Types Utils.

Section WithHost.
Context `{Host}.

(** [this.options]: the constructor's options with the defaults filled in. *)
Record Options : Type := {
  opt_data : list JsValue;
  opt_columns : list Column;
  opt_searchable : bool;
  opt_multiSort : bool;
  opt_filterFn : JsValue → string → list Column → bool;
  opt_defaultSort : SortState;
  opt_getRowId : JsValue → nat → string;
  opt_pagination : option PaginationState;
}.

(** A table instance.  [emitted] logs the calls of [emit], newest first. *)
Record LiteTable : Type := {
  state : TableState;
  options : Options;
  emitted : list TableEventType;
}.

Definition initPagination (o : TableOptions) : option PaginationState :=
  let make config :=
    Some (createPaginationState
            (default 1 (cfg_page config))
            (default 10 (cfg_pageSize config))
            (Z.of_nat (length (data o)))
            (cfg_pageSizeOptions config)) in
  match pagination o with
  | PaginationAbsent | PaginationBool false => None
  | PaginationBool true =>
      make {| cfg_page := None; cfg_pageSize := None; cfg_pageSizeOptions := None |}
  | PaginationPartial config => make config
  end.

Definition init_options (o : TableOptions) : Options :=
  {| opt_data := data o;
     opt_columns := columns o;
     opt_searchable := default true (searchable o);
     opt_multiSort := default false (multiSort o);
     opt_filterFn := default defaultFilterFn (filterFn o);
     opt_defaultSort :=
       default {| columnId := None; direction := None |} (defaultSort o);
     opt_getRowId := default generateRowId (getRowId o);
     opt_pagination := initPagination o |}.

Definition initially_hidden (columns : list Column) : gset string :=
  foldl (λ acc col, if default false (hidden col) then acc ∪ {[ id col ]} else acc)
        ∅ columns.

Definition createInitialState (o : Options) : TableState :=
  {| originalData := opt_data o;
     filteredData := [];
     sortedData := [];
     paginatedData := [];
     sortState := opt_defaultSort o;
     searchTerm := "";
     paginationState := opt_pagination o;
     hiddenColumns := initially_hidden (opt_columns o) |}.

Definition filterData (o : Options) (rows : list JsValue) (searchTerm : string)
    : list JsValue :=
  if negb (opt_searchable o) || string_falsy searchTerm then rows
  else filter (λ row, opt_filterFn o row searchTerm (opt_columns o) = true) rows.

(** [this.options.columns.find(col => col.id === columnId)] *)
Definition find_column (o : Options) (columnId : string) : option Column :=
  find_indexed (λ col _, String.eqb (id col) columnId) (opt_columns o).

Definition row_comparator (column : Column) (d : Direction)
    (a b : JsValue) : Z :=
  match sortFn column with
  | Some f => f a b (Some d)
  | None => compareValues (getCellValue a column) (getCellValue b column) (Some d)
  end.

Definition sortData (o : Options) (rows : list JsValue) (s : SortState)
    : list JsValue :=
  match columnId s, direction s with
  | Some cid, Some d =>
      if string_falsy cid then rows
      else
        match find_column o cid with
        | None => rows
        | Some column =>
            match sortable column with
            | Some false => rows
            | _ => sort_values (row_comparator column d) rows
            end
        end
  | _, _ => rows
  end.

Definition paginateData (rows : list JsValue) (p : option PaginationState)
    : list JsValue :=
  match p with
  | None => rows
  | Some ps => slice rows (startIndex ps) (endIndex ps)
  end.

Definition processData (o : Options) (st : TableState) : TableState :=
  let filtered := filterData o (originalData st) (searchTerm st) in
  let sorted := sortData o filtered (sortState st) in
  let pstate :=
    match paginationState st with
    | Some ps =>
        Some (createPaginationState (page ps) (pageSize ps)
                (Z.of_nat (length sorted)) (Some (pageSizeOptions ps)))
    | None => None
    end in
  {| originalData := originalData st;
     filteredData := filtered;
     sortedData := sorted;
     paginatedData := paginateData sorted pstate;
     sortState := sortState st;
     searchTerm := searchTerm st;
     paginationState := pstate;
     hiddenColumns := hiddenColumns st |}.

(** Assignments to single fields of [this.state]. *)
Definition set_originalData (rows : list JsValue) (st : TableState) : TableState :=
  {| originalData := rows; filteredData := filteredData st;
     sortedData := sortedData st; paginatedData := paginatedData st;
     sortState := sortState st; searchTerm := searchTerm st;
     paginationState := paginationState st; hiddenColumns := hiddenColumns st |}.

Definition set_sortState (s : SortState) (st : TableState) : TableState :=
  {| originalData := originalData st; filteredData := filteredData st;
     sortedData := sortedData st; paginatedData := paginatedData st;
     sortState := s; searchTerm := searchTerm st;
     paginationState := paginationState st; hiddenColumns := hiddenColumns st |}.

Definition set_searchTerm (term : string) (st : TableState) : TableState :=
  {| originalData := originalData st; filteredData := filteredData st;
     sortedData := sortedData st; paginatedData := paginatedData st;
     sortState := sortState st; searchTerm := term;
     paginationState := paginationState st; hiddenColumns := hiddenColumns st |}.

Definition set_paginationState (p : option PaginationState) (st : TableState)
    : TableState :=
  {| originalData := originalData st; filteredData := filteredData st;
     sortedData := sortedData st; paginatedData := paginatedData st;
     sortState := sortState st; searchTerm := searchTerm st;
     paginationState := p; hiddenColumns := hiddenColumns st |}.

Definition set_hiddenColumns (h : gset string) (st : TableState) : TableState :=
  {| originalData := originalData st; filteredData := filteredData st;
     sortedData := sortedData st; paginatedData := paginatedData st;
     sortState := sortState st; searchTerm := searchTerm st;
     paginationState := paginationState st; hiddenColumns := h |}.

Definition with_state (st : TableState) (t : LiteTable) : LiteTable :=
  {| state := st; options := options t; emitted := emitted t |}.

Definition emit (ev : TableEventType) (t : LiteTable) : LiteTable :=
  {| state := state t; options := options t; emitted := ev :: emitted t |}.

(** [{ ...ps, page: 1 }] *)
Definition with_page_one (ps : PaginationState) : PaginationState :=
  {| page := 1; pageSize := pageSize ps; pageSizeOptions := pageSizeOptions ps;
     totalRows := totalRows ps; totalPages := totalPages ps;
     startIndex := startIndex ps; endIndex := endIndex ps;
     hasPrevPage := hasPrevPage ps; hasNextPage := hasNextPage ps |}.

(** [new LiteTable(options)] *)
Definition new_LiteTable (o : TableOptions) : LiteTable :=
  let opts := init_options o in
  {| state := processData opts (createInitialState opts);
     options := opts;
     emitted := [] |}.

(** *** Read operations *)

Definition getRows (t : LiteTable) : list JsValue := paginatedData (state t).
Definition getAllRows (t : LiteTable) : list JsValue := sortedData (state t).
Definition getColumns (t : LiteTable) : list Column := opt_columns (options t).
Definition getVisibleColumns (t : LiteTable) : list Column :=
  filter (λ col, id col ∉ hiddenColumns (state t)) (opt_columns (options t)).
Definition getState (t : LiteTable) : TableState := state t.

Definition getRowById (t : LiteTable) (rid : string) : option JsValue :=
  find_indexed (λ row index, String.eqb (opt_getRowId (options t) row index) rid)
               (originalData (state t)).

(** *** Mutators *)

Definition reprocess (ev : option TableEventType) (st : TableState)
    (t : LiteTable) : LiteTable :=
  let t' := with_state (processData (options t) st) t in
  match ev with
  | Some e => emit e t'
  | None => t'
  end.

Definition sortBy (cid : string) (dir : SortDirection) (t : LiteTable) : LiteTable :=
  match find_column (options t) cid with
  | None => t
  | Some column =>
      match sortable column with
      | Some false => t
      | _ =>
          let newDirection :=
            match dir with
            | Some d => d
            | None =>
                let current := sortState (state t) in
                match columnId current with
                | Some c =>
                    if String.eqb c cid then
                      match direction current with
                      | Some asc => desc
                      | _ => asc
                      end
                    else asc
                | None => asc
                end
            end in
          reprocess (Some ev_sort)
            (set_sortState {| columnId := Some cid; direction := Some newDirection |}
                           (state t)) t
      end
  end.

Definition clearSort (t : LiteTable) : LiteTable :=
  reprocess (Some ev_sort)
    (set_sortState {| columnId := None; direction := None |} (state t)) t.

Definition search (term : string) (t : LiteTable) : LiteTable :=
  let st := set_searchTerm term (state t) in
  let st :=
    match paginationState st with
    | Some ps => set_paginationState (Some (with_page_one ps)) st
    | None => st
    end in
  reprocess (Some ev_search) st t.

Definition goToPage (p : Z) (t : LiteTable) : LiteTable :=
  match paginationState (state t) with
  | None => t
  | Some ps =>
      let safePage := Z.min (Z.max 1 p) (totalPages ps) in
      reprocess (Some ev_paginate)
        (set_paginationState
           (Some (createPaginationState safePage (pageSize ps)
                    (Z.of_nat (length (sortedData (state t))))
                    (Some (pageSizeOptions ps))))
           (state t)) t
  end.

Definition nextPage (t : LiteTable) : LiteTable :=
  match paginationState (state t) with
  | Some ps => if hasNextPage ps then goToPage (page ps + 1) t else t
  | None => t
  end.

Definition prevPage (t : LiteTable) : LiteTable :=
  match paginationState (state t) with
  | Some ps => if hasPrevPage ps then goToPage (page ps - 1) t else t
  | None => t
  end.

Definition setPageSize (size : Z) (t : LiteTable) : LiteTable :=
  match paginationState (state t) with
  | None => t
  | Some ps =>
      reprocess (Some ev_paginate)
        (set_paginationState
           (Some (createPaginationState 1 size
                    (Z.of_nat (length (sortedData (state t))))
                    (Some (pageSizeOptions ps))))
           (state t)) t
  end.

Definition toggleColumn (cid : string) (t : LiteTable) : LiteTable :=
  let h := hiddenColumns (state t) in
  let h' := if decide (cid ∈ h) then h ∖ {[ cid ]} else h ∪ {[ cid ]} in
  emit ev_columnToggle (with_state (set_hiddenColumns h' (state t)) t).

Definition showColumn (cid : string) (t : LiteTable) : LiteTable :=
  let h := hiddenColumns (state t) in
  if decide (cid ∈ h)
  then emit ev_columnToggle (with_state (set_hiddenColumns (h ∖ {[ cid ]}) (state t)) t)
  else t.

Definition hideColumn (cid : string) (t : LiteTable) : LiteTable :=
  let h := hiddenColumns (state t) in
  if decide (cid ∈ h) then t
  else emit ev_columnToggle (with_state (set_hiddenColumns (h ∪ {[ cid ]}) (state t)) t).

Definition reset (t : LiteTable) : LiteTable :=
  reprocess (Some ev_reset) (createInitialState (options t)) t.

Definition setData (rows : list JsValue) (t : LiteTable) : LiteTable :=
  reprocess None (set_originalData rows (state t)) t.

(** [destroy()] clears the listeners and leaves the state as it is. *)
Definition destroy (t : LiteTable) : LiteTable := t.

(** A call of a public mutator, and the tables reachable by such calls. *)
Inductive Call : Type :=
  | call_sortBy (cid : string) (dir : SortDirection)
  | call_clearSort
  | call_search (term : string)
  | call_goToPage (p : Z)
  | call_nextPage
  | call_prevPage
  | call_setPageSize (size : Z)
  | call_toggleColumn (cid : string)
  | call_showColumn (cid : string)
  | call_hideColumn (cid : string)
  | call_reset
  | call_setData (rows : list JsValue).

Definition run (t : LiteTable) (c : Call) : LiteTable :=
  match c with
  | call_sortBy cid dir => sortBy cid dir t
  | call_clearSort => clearSort t
  | call_search term => search term t
  | call_goToPage p => goToPage p t
  | call_nextPage => nextPage t
  | call_prevPage => prevPage t
  | call_setPageSize size => setPageSize size t
  | call_toggleColumn cid => toggleColumn cid t
  | call_showColumn cid => showColumn cid t
  | call_hideColumn cid => hideColumn cid t
  | call_reset => reset t
  | call_setData rows => setData rows t
  end.

(** Page sizes are positive: the size given at construction (10 when
    omitted) and every size passed to [setPageSize]. *)
Definition options_ok (o : TableOptions) : Prop :=
  match pagination o with
  | PaginationPartial config => 0 < default 10 (cfg_pageSize config)
  | _ => True
  end.

Definition call_ok (c : Call) : Prop :=
  match c with
  | call_setPageSize size => 0 < size
  | _ => True
  end.

Inductive Reachable (o : TableOptions) : LiteTable → Prop :=
  | reach_new : Reachable o (new_LiteTable o)
  | reach_call t c : Reachable o t → call_ok c → Reachable o (run t c).

End WithHost.
End Table.

(** ** The virtual-scroll engine (plugins/virtual-scroll.ts) *)

Module VirtualScroll.
Import Js.

Record VirtualScrollConfig : Type := {
  rowHeight : Z;
  overscan : option Z;
  containerHeight : Z;
  enabled : option bool;
}.

Record VirtualScrollState : Type := {
  startIndex : Z;
  endIndex : Z;
  totalHeight : Z;
  scrollTop : Z;
  visibleRows : Z;
  offsetY : Z;
}.

Definition calculateVirtualScroll {TData} (data : list TData)
    (config : VirtualScrollConfig) (scrollTop : Z) : VirtualScrollState :=
  let rowHeight := rowHeight config in
  let containerHeight := containerHeight config in
  let overscan := default 5 (overscan config) in
  let totalHeight := Z.of_nat (length data) * rowHeight in
  let startIndex := Z.max 0 (scrollTop / rowHeight - overscan) in
  let visibleRows := ceil_div containerHeight rowHeight in
  let endIndex :=
    Z.min (Z.of_nat (length data)) (startIndex + visibleRows + overscan * 2) in
  let offsetY := startIndex * rowHeight in
  {| startIndex := startIndex;
     endIndex := endIndex;
     totalHeight := totalHeight;
     scrollTop := scrollTop;
     visibleRows := visibleRows;
     offsetY := offsetY |}.

Definition getVirtualRows {TData} (data : list TData)
    (state : VirtualScrollState) : list TData :=
  slice data (startIndex state) (endIndex state).

(** A manager instance; the listeners only observe and are left out. *)
Record VirtualScrollManager (TData : Type) : Type := {
  config : VirtualScrollConfig;
  state : VirtualScrollState;
  data : list TData;
}.
Arguments config {TData} _.
Arguments state {TData} _.
Arguments data {TData} _.

Section Manager.
Context {TData : Type}.

(** The constructor stores the config with its defaults filled in. *)
Definition new_VirtualScrollManager (rows : list TData)
    (c : VirtualScrollConfig) : VirtualScrollManager TData :=
  let c' := {| rowHeight := rowHeight c;
               overscan := Some (default 5 (overscan c));
               containerHeight := containerHeight c;
               enabled := Some (default true (enabled c)) |} in
  {| config := c'; state := calculateVirtualScroll rows c' 0; data := rows |}.

Definition handleScroll (scrollTop : Z) (m : VirtualScrollManager TData)
    : VirtualScrollManager TData :=
  {| config := config m;
     state := calculateVirtualScroll (data m) (config m) scrollTop;
     data := data m |}.

Definition updateData (rows : list TData) (m : VirtualScrollManager TData)
    : VirtualScrollManager TData :=
  {| config := config m;
     state := calculateVirtualScroll rows (config m) (scrollTop (state m));
     data := rows |}.

Definition getVisibleRows (m : VirtualScrollManager TData) : list TData :=
  getVirtualRows (data m) (state m).

(** Returns the manager after the scroll together with the scrollTop. *)
Definition scrollToIndex (index : Z) (m : VirtualScrollManager TData)
    : VirtualScrollManager TData * Z :=
  let top :=
    Z.max 0 (Z.min (index * rowHeight (config m))
                   (totalHeight (state m) - containerHeight (config m))) in
  (handleScroll top m, top).

Definition getRowHeight (m : VirtualScrollManager TData) : Z :=
  rowHeight (config m).

(** Row [i] occupies the pixels from [i * rowHeight] up to
    [(i + 1) * rowHeight]; it intersects the viewport, the pixels from
    [scrollTop] to [scrollTop + containerHeight], when the two overlap.  In
    row units this is the window
    [scrollTop / rowHeight, (scrollTop + containerHeight) / rowHeight]. *)
Definition intersects_viewport (c : VirtualScrollConfig) (scrollTop i : Z) : Prop :=
  i * rowHeight c < scrollTop + containerHeight c ∧
  scrollTop < (i + 1) * rowHeight c.

Definition in_range (s : VirtualScrollState) (i : Z) : Prop :=
  startIndex s ≤ i < endIndex s.

End Manager.
End VirtualScroll.

(** ** The server-side fetch engine (plugins/server-side.ts)

    [fetchData] is an async function: a call runs up to [await fetch(...)]
    and suspends; it resumes when the network step (the fetch and the
    reading of the body) completes.  The manager record therefore carries,
    besides the fields of the class, the part of the host the code talks
    to: which [AbortController] objects have been aborted, the suspended
    activations of [fetchData] with the request each one issued, and the
    live timers.  A request whose signal is aborted before its network step
    completes rejects with an [AbortError], as the Fetch standard says.
    The listeners of [onChange] only observe and are left out. *)

Module ServerSide.
Import Js.

Inductive Method : Type := GET | POST.

Record Error : Type := {
  name : string;
  message : string;
}.

Record ServerRequestParams : Type := {
  page : Z;
  pageSize : Z;
  sortBy : option string;
  sortDirection : option Types.Direction;
  search : option string;
  custom : list (string * JsValue);
}.

Record ServerResponse : Type := {
  resp_data : list JsValue;
  resp_total : Z;
  resp_metadata : list (string * JsValue);
}.

Record ServerTransformedData : Type := {
  data : list JsValue;
  total : Z;
}.

Record ServerSideState : Type := {
  loading : bool;
  error : option Error;
  st_data : list JsValue;
  totalRows : Z;
  lastParams : option ServerRequestParams;
}.

Record ServerSideConfig : Type := {
  url : string;
  method : option Method;
  pagination : option bool;
  sorting : option bool;
  filtering : option bool;
  headers : option (list (string * string));
  transformRequest : option (ServerRequestParams → list (string * JsValue));
  transformResponse : option (ServerResponse → ServerTransformedData);
  searchDebounce : option Z;
  (** whether an [onError] handler is configured; its calls are logged *)
  onError : bool;
}.

(** [this.config]: the config with the defaults filled in. *)
Record Config : Type := {
  c_url : string;
  c_method : Method;
  c_pagination : bool;
  c_sorting : bool;
  c_filtering : bool;
  c_headers : list (string * string);
  c_searchDebounce : Z;
  c_transformRequest : option (ServerRequestParams → list (string * JsValue));
  c_transformResponse : option (ServerResponse → ServerTransformedData);
  c_onError : bool;
}.

(** What [fetch] was called with. *)
Record Request : Type := {
  req_url : string;
  req_query : list (string * string);
  req_method : Method;
  req_body : option (list (string * JsValue));
  req_signal : nat;
}.

(** How the network step of a request ends when it is not aborted. *)
Inductive FetchResult : Type :=
  | Responded (ok : bool) (status : Z) (statusText : string) (json : ServerResponse)
  | Rejected (e : Error).

Record ServerSideManager : Type := {
  config : Config;
  state : ServerSideState;
  abortController : option nat;
  debounceTimeout : option nat;
  (** host: the controllers on which [abort()] was called *)
  aborted : gset nat;
  (** host: the suspended activations of [fetchData], oldest first *)
  inflight : list Request;
  (** host: the live timers with the params their callback will fetch *)
  timers : list (nat * ServerRequestParams);
  next_controller : nat;
  next_timer : nat;
  (** the errors passed to [onError], newest first *)
  onError_calls : list Error;
}.

Section WithHost.
Context `{Host}.

Definition new_ServerSideManager (c : ServerSideConfig) : ServerSideManager :=
  {| config :=
       {| c_url := url c;
          c_method := default GET (method c);
          c_pagination := default true (pagination c);
          c_sorting := default true (sorting c);
          c_filtering := default true (filtering c);
          c_headers := default [("Content-Type", "application/json")] (headers c);
          c_searchDebounce := default 300 (searchDebounce c);
          c_transformRequest := transformRequest c;
          c_transformResponse := transformResponse c;
          c_onError := onError c |};
     state := {| loading := false; error := None; st_data := [];
                 totalRows := 0; lastParams := None |};
     abortController := None;
     debounceTimeout := None;
     aborted := ∅;
     inflight := [];
     timers := [];
     next_controller := 0;
     next_timer := 0;
     onError_calls := [] |}.

Definition direction_value (d : option Types.Direction) : JsValue :=
  match d with
  | Some Types.asc => JString "asc"
  | Some Types.desc => JString "desc"
  | None => JUndefined
  end.

Definition reserved_keys : list string :=
  ["page"; "pageSize"; "sortBy"; "sortDirection"; "search"].

Definition truthy_string (s : option string) : bool :=
  match s with
  | Some s => negb (string_falsy s)
  | None => false
  end.

Definition buildDefaultParams (c : Config) (params : ServerRequestParams)
    : list (string * JsValue) :=
  (if c_pagination c
   then [("page", JNumber (page params)); ("pageSize", JNumber (pageSize params))]
   else []) ++
  (if c_sorting c && truthy_string (sortBy params)
   then [("sortBy", JString (default "" (sortBy params)));
         ("sortDirection", direction_value (sortDirection params))]
   else []) ++
  (if c_filtering c && truthy_string (search params)
   then [("search", JString (default "" (search params)))]
   else []) ++
  filter (λ kv, kv.1 ∉ reserved_keys) (custom params).

(** The query string of a GET request; a POST request has none. *)
Definition buildUrl (c : Config) (params : list (string * JsValue))
    : list (string * string) :=
  match c_method c with
  | POST => []
  | GET =>
      omap (λ kv, if is_nullish kv.2 then None else Some (kv.1, to_String kv.2))
           params
  end.

(** [this.state = { ...this.state, ...partial }], one definition per shape
    of [partial] in the source. *)
Definition state_loading (params : ServerRequestParams) (s : ServerSideState)
    : ServerSideState :=
  {| loading := true; error := None; st_data := st_data s;
     totalRows := totalRows s; lastParams := Some params |}.

Definition state_success (d : ServerTransformedData) (s : ServerSideState)
    : ServerSideState :=
  {| loading := false; error := error s; st_data := data d;
     totalRows := total d; lastParams := lastParams s |}.

Definition state_error (e : Error) (s : ServerSideState) : ServerSideState :=
  {| loading := false; error := Some e; st_data := [];
     totalRows := 0; lastParams := lastParams s |}.

Definition abort_error : Error :=
  {| name := "AbortError"; message := "The operation was aborted." |}.

Definition http_error (status : Z) (statusText : string) : Error :=
  {| name := "Error";
     message := ("HTTP " +:+ pretty status +:+ ": " +:+ statusText)%string |}.

(** [fetchData] up to its first [await]. *)
Definition fetchData (params : ServerRequestParams) (m : ServerSideManager)
    : ServerSideManager :=
  let aborted' :=
    match abortController m with
    | Some c => aborted m ∪ {[ c ]}
    | None => aborted m
    end in
  let controller := next_controller m in
  let requestParams :=
    match c_transformRequest (config m) with
    | Some f => f params
    | None => buildDefaultParams (config m) params
    end in
  let request :=
    {| req_url := c_url (config m);
       req_query := buildUrl (config m) requestParams;
       req_method := c_method (config m);
       req_body := match c_method (config m) with
                   | POST => Some requestParams
                   | GET => None
                   end;
       req_signal := controller |} in
  {| config := config m;
     state := state_loading params (state m);
     abortController := Some controller;
     debounceTimeout := debounceTimeout m;
     aborted := aborted';
     inflight := inflight m ++ [request];
     timers := timers m;
     next_controller := S controller;
     next_timer := next_timer m;
     onError_calls := onError_calls m |}.

(** What the awaited network step hands to the suspended activation: the
    abort error when the request's signal fired, else the result. *)
Definition delivered (m : ServerSideManager) (controller : nat)
    (r : FetchResult) : FetchResult :=
  if decide (controller ∈ aborted m) then Rejected abort_error else r.

(** The [try] block after the [await]: the new state, or the thrown error. *)
Definition after_await (c : Config) (r : FetchResult) (s : ServerSideState)
    : ServerSideState + Error :=
  match r with
  | Rejected e => inr e
  | Responded false status statusText _ => inr (http_error status statusText)
  | Responded true _ _ json =>
      let transformed :=
        match c_transformResponse c with
        | Some f => f json
        | None => {| data := resp_data json; total := resp_total json |}
        end in
      inl (state_success transformed s)
  end.

(** [fetchData] from the [await] to its end, for the activation that
    issued the request with signal [controller]. *)
Definition settle (controller : nat) (r : FetchResult) (m : ServerSideManager)
    : ServerSideManager :=
  if existsb (λ q, Nat.eqb (req_signal q) controller) (inflight m) then
    let rest := filter (λ q, req_signal q ≠ controller) (inflight m) in
    let '(state', calls') :=
      match after_await (config m) (delivered m controller r) (state m) with
      | inl s => (s, onError_calls m)
      | inr e =>
          if String.eqb (name e) "AbortError" then (state m, onError_calls m)
          else (state_error e (state m),
                if c_onError (config m) then e :: onError_calls m
                else onError_calls m)
      end in
    {| config := config m;
       state := state';
       abortController := None;
       debounceTimeout := debounceTimeout m;
       aborted := aborted m;
       inflight := rest;
       timers := timers m;
       next_controller := next_controller m;
       next_timer := next_timer m;
       onError_calls := calls' |}
  else m.

Definition clear_timer (timer : option nat) (ts : list (nat * ServerRequestParams))
    : list (nat * ServerRequestParams) :=
  match timer with
  | Some i => filter (λ t, t.1 ≠ i) ts
  | None => ts
  end.

Definition fetchDataDebounced (params : ServerRequestParams)
    (m : ServerSideManager) : ServerSideManager :=
  {| config := config m;
     state := state m;
     abortController := abortController m;
     debounceTimeout := Some (next_timer m);
     aborted := aborted m;
     inflight := inflight m;
     timers := clear_timer (debounceTimeout m) (timers m) ++ [(next_timer m, params)];
     next_controller := next_controller m;
     next_timer := S (next_timer m);
     onError_calls := onError_calls m |}.

(** The callback of timer [i] runs, if the timer is still live. *)
Definition timer_fires (i : nat) (m : ServerSideManager) : ServerSideManager :=
  match list_find (λ t, t.1 = i) (timers m) with
  | Some (_, (_, params)) =>
      fetchData params
        {| config := config m; state := state m;
           abortController := abortController m;
           debounceTimeout := debounceTimeout m;
           aborted := aborted m; inflight := inflight m;
           timers := filter (λ t, t.1 ≠ i) (timers m);
           next_controller := next_controller m;
           next_timer := next_timer m;
           onError_calls := onError_calls m |}
  | None => m
  end.

Definition cancel (m : ServerSideManager) : ServerSideManager :=
  {| config := config m;
     state := state m;
     abortController := None;
     debounceTimeout := None;
     aborted := match abortController m with
                | Some c => aborted m ∪ {[ c ]}
                | None => aborted m
                end;
     inflight := inflight m;
     timers := clear_timer (debounceTimeout m) (timers m);
     next_controller := next_controller m;
     next_timer := next_timer m;
     onError_calls := onError_calls m |}.

Definition destroy (m : ServerSideManager) : ServerSideManager := cancel m.

Definition getState (m : ServerSideManager) : ServerSideState := state m.

(** What can happen to a manager: a call of its API, a network step that
    completes, a timer that fires. *)
Inductive Event : Type :=
  | ev_fetchData (params : ServerRequestParams)
  | ev_fetchDataDebounced (params : ServerRequestParams)
  | ev_cancel
  | ev_destroy
  | ev_settle (controller : nat) (r : FetchResult)
  | ev_timer (i : nat).

Definition step (m : ServerSideManager) (e : Event) : ServerSideManager :=
  match e with
  | ev_fetchData params => fetchData params m
  | ev_fetchDataDebounced params => fetchDataDebounced params m
  | ev_cancel => cancel m
  | ev_destroy => destroy m
  | ev_settle controller r => settle controller r m
  | ev_timer i => timer_fires i m
  end.

Definition run (m : ServerSideManager) (trace : list Event) : ServerSideManager :=
  foldl step m trace.

(** The requests in flight whose cancellation was never signalled. *)
Definition active (m : ServerSideManager) : list Request :=
  filter (λ q, req_signal q ∉ aborted m) (inflight m).

(** The observable state of the claims: data, totalRows, error, loading. *)
Definition observable (m : ServerSideManager)
    : list JsValue * Z * option Error * bool :=
  (st_data (state m), totalRows (state m), error (state m), loading (state m)).

End WithHost.
End ServerSide.

(** ** The three pipeline stages, defined on their own

    These definitions follow the specification of the derived-view
    pipeline, stage by stage, and read nothing from the cached arrays of a
    table.  They are what [getRows] is compared with. *)

Module Pipeline.
Import Js Types Utils Table.

Section WithHost.
Context `{Host}.

(** Filter: if searchable and the term is not empty, keep the rows for
    which the configured predicate returns true. *)
Fixpoint keep_rows (p : JsValue → bool) (rows : list JsValue) : list JsValue :=
  match rows with
  | [] => []
  | row :: rest => if p row then row :: keep_rows p rest else keep_rows p rest
  end.

Definition filter_stage (o : Options) (term : string) (rows : list JsValue)
    : list JsValue :=
  if opt_searchable o && negb (String.eqb term "")
  then keep_rows (λ row, opt_filterFn o row term (opt_columns o)) rows
  else rows.

(** The column to sort by: the sort state names a column and a direction,
    the column exists and is not marked unsortable. *)
Definition sort_column (o : Options) (s : SortState) : option (Column * Direction) :=
  match columnId s, direction s with
  | Some cid, Some d =>
      if String.eqb cid "" then None
      else
        match List.find (λ col, String.eqb (id col) cid) (opt_columns o) with
        | Some col =>
            if bool_decide (sortable col = Some false) then None else Some (col, d)
        | None => None
        end
  | _, _ => None
  end.

(** Sort: stable-sort a copy with the column's comparator, or with the
    default comparator on the two cell values. *)
Definition sort_stage (o : Options) (s : SortState) (rows : list JsValue)
    : list JsValue :=
  match sort_column o s with
  | Some (col, d) =>
      sort_values
        (λ a b, match sortFn col with
                | Some f => f a b (Some d)
                | None => compareValues (getCellValue a col) (getCellValue b col) (Some d)
                end)
        rows
  | None => rows
  end.

(** Paginate: the rows of page [page], that is at most [pageSize] rows
    after the first [(page - 1) * pageSize]. *)
Definition paginate_stage (p : option PaginationState) (rows : list JsValue)
    : list JsValue :=
  match p with
  | Some ps =>
      take (Z.to_nat (pageSize ps))
           (drop (Z.to_nat ((page ps - 1) * pageSize ps)) rows)
  | None => rows
  end.

End WithHost.
End Pipeline.

(** ** Notions used by the statements *)

Module Notions.
Import Js Types.

(** A list whose elements marked by [last] all stand behind the others. *)
Definition marked_last {A} (last : A → bool) (l : list A) : Prop :=
  ∃ front back, l = front ++ back ∧
    Forall (λ x, last x = false) front ∧ Forall (λ x, last x = true) back.

Definition flip_direction (d : Direction) : Direction :=
  match d with asc => desc | desc => asc end.

(** What a table keeps true from its construction on: the options are the
    constructor's, the state is the pipeline's output for its own inputs,
    and the page size is positive. *)
Definition Inv `{Host} (o : TableOptions) (t : Table.LiteTable) : Prop :=
  Table.options t = Table.init_options o ∧
  Table.processData (Table.options t) (Table.state t) = Table.state t ∧
  ∀ ps, paginationState (Table.state t) = Some ps → 0 < pageSize ps.

(** The state and the [onError] log after the activation of a request
    that was not aborted resumes with result [r]. *)
Definition committed (c : ServerSide.Config) (r : ServerSide.FetchResult)
    (s : ServerSide.ServerSideState) (calls : list ServerSide.Error)
    : ServerSide.ServerSideState * list ServerSide.Error :=
  match ServerSide.after_await c r s with
  | inl s' => (s', calls)
  | inr e =>
      if String.eqb (ServerSide.name e) "AbortError" then (s, calls)
      else (ServerSide.state_error e s,
            if ServerSide.c_onError c then e :: calls else calls)
  end.

End Notions.

(** ** Sample data *)

Module Samples.
Import Js Types.

Definition lower_ascii (c : Ascii.ascii) : Ascii.ascii :=
  let n := Ascii.nat_of_ascii c in
  if (65 <=? n)%nat && (n <=? 90)%nat then Ascii.ascii_of_nat (n + 32) else c.

Fixpoint lower_string (s : string) : string :=
  match s with
  | EmptyString => EmptyString
  | String c rest => String (lower_ascii c) (lower_string rest)
  end.

Definition compare_strings (a b : string) : Z :=
  match String.compare a b with
  | Lt => -1
  | Eq => 0
  | Gt => 1
  end.

(** A host for plain ASCII text. *)
Definition ascii_host : Host :=
  {| toLowerCase := lower_string;
     localeCompare := compare_strings;
     dateToString := λ t, pretty t |}.

Definition user (uid : Z) (name : string) (age : JsValue) : JsValue :=
  JObject [("id", JNumber uid); ("name", JString name); ("age", age)].

Definition users : list JsValue :=
  [ user 1 "Carol" (JNumber 41);
    user 2 "alice" JNull;
    user 3 "Bob" (JNumber 29);
    user 4 "dave" JUndefined;
    user 5 "Eve" (JNumber 35) ].

Definition plain_column (cid : string) : Column :=
  {| id := cid; header := cid; accessor := None; sortable := None;
     sortFn := None; filterable := None; hidden := None |}.

Definition user_columns : list Column :=
  [ plain_column "id"; plain_column "name"; plain_column "age" ].

Definition user_options : TableOptions :=
  {| data := users;
     columns := user_columns;
     pagination :=
       PaginationPartial {| cfg_page := Some 1; cfg_pageSize := Some 2;
                            cfg_pageSizeOptions := None |};
     searchable := None;
     filterFn := None;
     multiSort := None;
     defaultSort := None;
     getRowId := None |}.

(** Two rows that derive the same identity. *)
Definition twins : list JsValue :=
  [ user 7 "first" (JNumber 1); user 7 "second" (JNumber 2) ].

Definition twin_options : TableOptions :=
  {| data := twins;
     columns := user_columns;
     pagination := PaginationAbsent;
     searchable := None;
     filterFn := None;
     multiSort := None;
     defaultSort := None;
     getRowId := None |}.

Definition params_of_page (n : Z) : ServerSide.ServerRequestParams :=
  {| ServerSide.page := n; ServerSide.pageSize := 10;
     ServerSide.sortBy := None; ServerSide.sortDirection := None;
     ServerSide.search := None; ServerSide.custom := [] |}.

Definition plain_config : ServerSide.ServerSideConfig :=
  {| ServerSide.url := "/api/users";
     ServerSide.method := None;
     ServerSide.pagination := None;
     ServerSide.sorting := None;
     ServerSide.filtering := None;
     ServerSide.headers := None;
     ServerSide.transformRequest := None;
     ServerSide.transformResponse := None;
     ServerSide.searchDebounce := None;
     ServerSide.onError := true |}.

Definition ok_response (rows : list JsValue) : ServerSide.FetchResult :=
  ServerSide.Responded true 200 "OK"
    {| ServerSide.resp_data := rows;
       ServerSide.resp_total := Z.of_nat (length rows);
       ServerSide.resp_metadata := [] |}.

(** The users searched for "e", sorted by name, on the second page. *)
Definition browsed_users : Table.LiteTable :=
  let run := Table.run (H := ascii_host) in
  run
    (run
       (run (Table.new_LiteTable (H := ascii_host) user_options)
            (Table.call_search "e"))
       (Table.call_sortBy "name" None))
    Table.call_nextPage.

Definition scroll_config : VirtualScroll.VirtualScrollConfig :=
  {| VirtualScroll.rowHeight := 48;
     VirtualScroll.overscan := None;
     VirtualScroll.containerHeight := 600;
     VirtualScroll.enabled := None |}.

End Samples.

(** ** Further utility functions (utils.ts)

    As everywhere in this file, a property lookup sees the own properties
    of an object, not what it inherits from its prototype. *)

Module MoreUtils.
Import Js.

Definition dot : Ascii.ascii := Ascii.ascii_of_nat 46.

(** [path.split('.')]: the pieces between the dots, at least one. *)
Fixpoint split_dot (path : string) : list string :=
  match path with
  | EmptyString => [EmptyString]
  | String c rest =>
      if Ascii.eqb c dot then EmptyString :: split_dot rest
      else
        match split_dot rest with
        | piece :: pieces => String c piece :: pieces
        | [] => [String c EmptyString]
        end
  end.

(** One step of the [reduce]: [acc && typeof acc === 'object'] holds for
    the values that pass [is_object]. *)
Definition nested_step (acc : JsValue) (part : string) : JsValue :=
  if is_object acc then get_prop acc part else JUndefined.

Definition getNestedValue (obj : JsValue) (path : string) : JsValue :=
  foldl nested_step obj (split_dot path).

End MoreUtils.

(** ** Managers reachable from their construction *)

Module Lifecycles.
Import Js.




(** The state of a scroll manager is the calculation for its own data,
    config and scroll offset. *)
Definition scroll_consistent {TData} (m : VirtualScroll.VirtualScrollManager TData)
    : Prop :=
  VirtualScroll.state m =
    VirtualScroll.calculateVirtualScroll (VirtualScroll.data m)
      (VirtualScroll.config m) (VirtualScroll.scrollTop (VirtualScroll.state m)).

End Lifecycles.

(** ** More sample data *)

Module MoreSamples.
Import Js Types Samples.

(** The users, paginated by two, freshly constructed. *)
Definition fresh_users : Table.LiteTable :=
  Table.new_LiteTable (H := ascii_host) user_options.

(** The descriptor of [fresh_users]: page 1 of 3. *)
Definition first_page : PaginationState :=
  Utils.createPaginationState 1 2 5 None.

(** Rows without a usable [id]. *)
Definition anonymous_options : TableOptions :=
  {| data := [JObject [("name", JString "x")]; JString "plain";
              JObject [("id", JNull)]];
     columns := user_columns;
     pagination := PaginationAbsent;
     searchable := None;
     filterFn := None;
     multiSort := None;
     defaultSort := None;
     getRowId := None |}.

Definition letters : VirtualScroll.VirtualScrollManager string :=
  VirtualScroll.new_VirtualScrollManager ["a"; "b"; "c"] scroll_config.

Definition fresh_manager : ServerSide.ServerSideManager :=
  ServerSide.new_ServerSideManager plain_config.

End MoreSamples.

(** * Verification *)

(** ** Arithmetic and array facts *)

Module JsFacts.
Import Js Notions.

Lemma ceil_div_bounds (a b : Z) :
  0 < b → (ceil_div a b - 1) * b < a ∧ a ≤ ceil_div a b * b.
Proof.
  intros Hb. unfold ceil_div.
  pose proof (Z.div_mod (- a) b ltac:(lia)) as Hdm.
  pose proof (Z.mod_pos_bound (- a) b Hb) as Hr.
  nia.
Qed.

Lemma ceil_div_unique (a b c : Z) :
  0 < b → (c - 1) * b < a → a ≤ c * b → ceil_div a b = c.
Proof.
  intros Hb H1 H2. destruct (ceil_div_bounds a b Hb) as [H3 H4]. nia.
Qed.

Lemma slice_nil {A} (s e : Z) : slice (@nil A) s e = [].
Proof. unfold slice. by rewrite drop_nil, take_nil. Qed.

(** With bounds that are not negative, [slice] is a [drop] then a [take]. *)
Lemma slice_take_drop {A} (arr : list A) (s e : Z) :
  0 ≤ s → 0 ≤ e →
  slice arr s e = take (Z.to_nat (e - s)) (drop (Z.to_nat s) arr).
Proof.
  intros Hs He. unfold slice.
  destruct (Z.ltb_spec s 0) as [?|_]; [lia|].
  destruct (Z.ltb_spec e 0) as [?|_]; [lia|].
  destruct (Z_le_gt_dec s (Z.of_nat (length arr))) as [Hle|Hgt].
  - rewrite (Z.min_l s) by lia.
    destruct (Z_le_gt_dec e (Z.of_nat (length arr))) as [Hle'|Hgt'].
    + by rewrite (Z.min_l e) by lia.
    + rewrite (Z.min_r e) by lia.
      rewrite !take_ge; [done| |]; rewrite length_drop; lia.
  - rewrite (Z.min_r s) by lia.
    rewrite !drop_ge by lia. by rewrite !take_nil.
Qed.

Lemma find_from_Some {A} (p : A → nat → bool) (arr : list A) (base : nat) (x : A) :
  find_from p base arr = Some x ↔
  ∃ i, arr !! i = Some x ∧ p x (base + i)%nat = true ∧
       ∀ j y, (j < i)%nat → arr !! j = Some y → p y (base + j)%nat = false.
Proof.
  revert base. induction arr as [|a arr IH]; intros base; simpl.
  - split; [done|]. by intros (i & Hi & _).
  - destruct (p a base) eqn:Hp.
    + split.
      * intros [= <-]. exists 0%nat. rewrite Nat.add_0_r.
        split_and!; [done..|]. intros j y Hj. lia.
      * intros (i & Hi & Hpi & Hmin). destruct i as [|i]; [by simplify_eq/=|].
        specialize (Hmin 0%nat a ltac:(lia) eq_refl).
        rewrite Nat.add_0_r in Hmin. congruence.
    + rewrite IH. split.
      * intros (i & Hi & Hpi & Hmin). exists (S i).
        rewrite Nat.add_succ_r. split_and!; [done..|].
        intros [|j] y Hj Hy; simplify_eq/=.
        -- by rewrite Nat.add_0_r.
        -- rewrite Nat.add_succ_r. apply (Hmin j); [lia|done].
      * intros (i & Hi & Hpi & Hmin). destruct i as [|i].
        -- simplify_eq/=. rewrite Nat.add_0_r in Hpi. congruence.
        -- exists i. rewrite Nat.add_succ_r in Hpi. split_and!; [done..|].
           intros j y Hj Hy. specialize (Hmin (S j) y ltac:(lia) Hy).
           by rewrite Nat.add_succ_r in Hmin.
Qed.

Lemma find_from_None {A} (p : A → nat → bool) (arr : list A) (base : nat) :
  find_from p base arr = None ↔
  ∀ j y, arr !! j = Some y → p y (base + j)%nat = false.
Proof.
  revert base. induction arr as [|a arr IH]; intros base; simpl.
  - split; [|done]. by intros _ j y.
  - destruct (p a base) eqn:Hp.
    + split; [done|]. intros Hall. specialize (Hall 0%nat a eq_refl).
      rewrite Nat.add_0_r in Hall. congruence.
    + rewrite IH. split.
      * intros Hall [|j] y Hy; simplify_eq/=.
        -- by rewrite Nat.add_0_r.
        -- rewrite Nat.add_succ_r. by apply Hall.
      * intros Hall j y Hy. specialize (Hall (S j) y Hy).
        by rewrite Nat.add_succ_r in Hall.
Qed.

Lemma slice_singleton {A} (x : A) (s e : Z) :
  0 ≤ s → slice [x] s e = if (s =? 0) && (1 <=? e) then [x] else [].
Proof.
  intros Hs. unfold slice. cbn [length]. change (Z.of_nat 1) with 1.
  destruct (Z.ltb_spec s 0) as [?|_]; [lia|].
  destruct (Z.eqb_spec s 0) as [->|Hne]; cbn [andb].
  - change (Z.to_nat (Z.min 0 1)) with 0%nat. cbn [drop].
    destruct (Z.leb_spec 1 e), (Z.ltb_spec e 0); try lia.
    + by replace (Z.to_nat (Z.min e 1 - Z.min 0 1)) with 1%nat by lia.
    + by replace (Z.to_nat (Z.max (1 + e) 0 - Z.min 0 1)) with 0%nat by lia.
    + by replace (Z.to_nat (Z.min e 1 - Z.min 0 1)) with 0%nat by lia.
  - replace (Z.to_nat (Z.min s 1)) with 1%nat by lia. cbn [drop].
    by rewrite take_nil.
Qed.

(** The sort rearranges and loses nothing. *)
Lemma sort_insert_perm {A} (cmp : A → A → Z) (x : A) (l : list A) :
  sort_insert cmp x l ≡ₚ x :: l.
Proof.
  induction l as [|y l IH]; simpl; [done|].
  destruct (cmp x y <=? 0); [done|].
  rewrite IH. apply Permutation_swap.
Qed.

Lemma array_sort_perm {A} (cmp : A → A → Z) (l : list A) :
  array_sort cmp l ≡ₚ l.
Proof.
  induction l as [|x l IH]; simpl; [done|].
  unfold array_sort in *. simpl. by rewrite sort_insert_perm, IH.
Qed.

Lemma filter_undefined_split (arr : list JsValue) :
  filter (λ v, is_undefined v = false) arr
  ++ filter (λ v, is_undefined v = true) arr ≡ₚ arr.
Proof.
  induction arr as [|v arr IH]; [done|].
  rewrite !filter_cons. destruct (is_undefined v) eqn:Hv.
  - rewrite decide_False, decide_True by done.
    by rewrite <- Permutation_middle, IH.
  - rewrite decide_True, decide_False by done.
    simpl. by rewrite IH.
Qed.

Lemma sort_values_perm (cmp : JsValue → JsValue → Z) (arr : list JsValue) :
  sort_values cmp arr ≡ₚ arr.
Proof.
  unfold sort_values. rewrite array_sort_perm. apply filter_undefined_split.
Qed.

(** An array without [undefined] elements is sorted as it stands. *)
Lemma sort_values_defined (cmp : JsValue → JsValue → Z) (arr : list JsValue) :
  Forall (λ v, is_undefined v = false) arr →
  sort_values cmp arr = array_sort cmp arr.
Proof.
  intros Hdef. unfold sort_values.
  assert (filter (λ v, is_undefined v = false) arr = arr) as ->.
  { induction Hdef as [|v arr Hv _ IH]; [done|].
    rewrite filter_cons, decide_True by done. by rewrite IH. }
  assert (filter (λ v, is_undefined v = true) arr = []) as ->.
  { induction Hdef as [|v arr Hv _ IH]; [done|].
    rewrite filter_cons, decide_False by congruence. done. }
  by rewrite app_nil_r.
Qed.

Section MarkedLast.
Context {A : Type} (cmp : A → A → Z) (last : A → bool).
Hypothesis marked_after : ∀ x y, last x = true → last y = false → 0 < cmp x y.
Hypothesis unmarked_before : ∀ x y, last x = false → last y = true → cmp x y ≤ 0.

Lemma sort_insert_marked_last (x : A) (l : list A) :
  marked_last last l → marked_last last (sort_insert cmp x l).
Proof.
  intros (front & back & -> & Hfront & Hback).
  induction Hfront as [|y front Hy Hfront IH]; simpl.
  - destruct (last x) eqn:Hx.
    + exists [], (sort_insert cmp x back). split_and!; [done..|].
      rewrite sort_insert_perm. by constructor.
    + exists [x], back. split_and!; [|by repeat constructor|done].
      destruct Hback as [|y back Hy Hback]; simpl; [done|].
      pose proof (unmarked_before x y Hx Hy).
      by destruct (Z.leb_spec (cmp x y) 0); [|lia].
  - destruct (Z.leb_spec (cmp x y) 0) as [Hle|Hgt].
    + exists (x :: y :: front), back. split_and!; [done| |done].
      constructor; [|by constructor].
      destruct (last x) eqn:Hx; [|done].
      pose proof (marked_after x y Hx Hy). lia.
    + destruct IH as (front' & back' & Heq & Hfront' & Hback').
      exists (y :: front'), back'. rewrite Heq.
      split_and!; [done| |done]. by constructor.
Qed.

Lemma array_sort_marked_last (l : list A) : marked_last last (array_sort cmp l).
Proof.
  induction l as [|x l IH].
  - exists [], []. by split_and!.
  - by apply sort_insert_marked_last.
Qed.

End MarkedLast.

End JsFacts.

(** ** The table engine *)

Module TableProofs.
Import Js Types Utils Table Notions JsFacts.

Section WithHost.
Context `{Host}.

Local Arguments processData : simpl never.

(** *** The pagination descriptor *)

Lemma createPaginationState_fields (p size n : Z) (opts : option (list Z)) :
  let ps := createPaginationState p size n opts in
  totalPages ps = Z.max 1 (ceil_div n size) ∧
  page ps = Z.min (Z.max 1 p) (totalPages ps) ∧
  pageSize ps = size ∧
  totalRows ps = n ∧
  startIndex ps = (page ps - 1) * size ∧
  endIndex ps = Z.min (startIndex ps + size) n.
Proof. done. Qed.

Lemma createPaginationState_bounds (p size n : Z) (opts : option (list Z)) :
  0 < size → 0 ≤ n →
  let ps := createPaginationState p size n opts in
  1 ≤ page ps ≤ totalPages ps ∧
  0 ≤ startIndex ps ∧ startIndex ps ≤ endIndex ps ∧ endIndex ps ≤ n.
Proof.
  intros Hsize Hn. simpl.
  destruct (ceil_div_bounds n size Hsize) as [Hlo Hhi].
  set (c := ceil_div n size) in *.
  nia.
Qed.

Lemma createPaginationState_idem (p size n : Z) (opts : option (list Z)) :
  let ps := createPaginationState p size n opts in
  createPaginationState (page ps) (pageSize ps) n (Some (pageSizeOptions ps)) = ps.
Proof.
  simpl. unfold createPaginationState. simpl.
  set (tp := Z.max 1 (ceil_div n size)).
  assert (Z.min (Z.max 1 (Z.min (Z.max 1 p) tp)) tp = Z.min (Z.max 1 p) tp)
    as -> by lia.
  done.
Qed.

(** *** The pipeline is idempotent and ignores the cached arrays *)

Lemma processData_idem (o : Options) (st : TableState) :
  processData o (processData o st) = processData o st.
Proof.
  unfold processData. cbn -[createPaginationState].
  destruct (paginationState st) as [ps|]; cbn -[createPaginationState]; [|done].
  pose proof (createPaginationState_idem (page ps) (pageSize ps)
    (Z.of_nat (length (sortData o (filterData o (originalData st) (searchTerm st))
                         (sortState st))))
    (Some (pageSizeOptions ps))) as Hidem.
  cbn -[createPaginationState] in Hidem. by rewrite Hidem.
Qed.

Lemma processData_set_hiddenColumns (o : Options) (h : gset string) (st : TableState) :
  processData o (set_hiddenColumns h st) = set_hiddenColumns h (processData o st).
Proof. done. Qed.

Lemma initPagination_pageSize (o : TableOptions) (ps : PaginationState) :
  options_ok o → initPagination o = Some ps → 0 < pageSize ps.
Proof.
  unfold options_ok, initPagination.
  destruct (pagination o) as [|[]|config]; intros Hok [= <-]; simpl; lia.
Qed.

Lemma processData_pageSize (o : Options) (st : TableState) (ps : PaginationState) :
  paginationState (processData o st) = Some ps →
  ∃ ps0, paginationState st = Some ps0 ∧ pageSize ps = pageSize ps0.
Proof.
  unfold processData. simpl.
  destruct (paginationState st) as [ps0|]; intros [= <-]. by exists ps0.
Qed.

Lemma Inv_new (o : TableOptions) : options_ok o → Inv o (new_LiteTable o).
Proof.
  intros Hok. split_and!; [done|apply processData_idem|].
  intros ps Hps. unfold new_LiteTable in Hps. cbn [state] in Hps.
  apply processData_pageSize in Hps as (ps0 & Hps0 & ->).
  by apply (initPagination_pageSize o).
Qed.

Lemma Inv_reprocess (o : TableOptions) (ev : option TableEventType)
    (st : TableState) (t : LiteTable) :
  options t = init_options o →
  (∀ ps, paginationState st = Some ps → 0 < pageSize ps) →
  Inv o (reprocess ev st t).
Proof.
  intros Hopts Hsize.
  assert (Inv o (with_state (processData (options t) st) t)) as Hinv.
  { split_and!; [done|apply processData_idem|].
    intros ps Hps. cbn [with_state state] in Hps.
    apply processData_pageSize in Hps as (ps0 & Hps0 & ->). by apply Hsize. }
  unfold reprocess. by destruct ev.
Qed.

Lemma Inv_hidden (o : TableOptions) (h : gset string) (t : LiteTable) :
  Inv o t →
  Inv o (emit ev_columnToggle (with_state (set_hiddenColumns h (state t)) t)).
Proof.
  intros (Hopts & Hfix & Hsize). split_and!; [done| |done].
  simpl. rewrite processData_set_hiddenColumns. by rewrite Hfix.
Qed.

Lemma Inv_goToPage (o : TableOptions) (p : Z) (t : LiteTable) :
  Inv o t → Inv o (goToPage p t).
Proof.
  intros Hinv. pose proof Hinv as (Hopts & Hfix & Hsize). unfold goToPage.
  destruct (paginationState (state t)) as [ps|] eqn:Hps; [|done].
  apply Inv_reprocess; [done|]. intros ps' [= <-]. simpl. by apply Hsize.
Qed.

Lemma Inv_run (o : TableOptions) (t : LiteTable) (c : Call) :
  options_ok o → Inv o t → call_ok c → Inv o (run t c).
Proof.
  intros Hok Hinv Hc. pose proof Hinv as (Hopts & Hfix & Hsize).
  destruct c; simpl.
  - unfold sortBy. destruct (find_column _ _) as [column|]; [|done].
    destruct (sortable column) as [[]|]; try done;
      by apply Inv_reprocess.
  - by apply Inv_reprocess.
  - unfold search. apply Inv_reprocess; [done|]. simpl.
    destruct (paginationState (state t)) as [ps|] eqn:Hps; simpl.
    + intros ps' [= <-]. simpl. by apply Hsize.
    + by rewrite Hps.
  - by apply Inv_goToPage.
  - unfold nextPage. destruct (paginationState (state t)) as [ps|]; [|done].
    destruct (hasNextPage ps); [|done]. by apply Inv_goToPage.
  - unfold prevPage. destruct (paginationState (state t)) as [ps|]; [|done].
    destruct (hasPrevPage ps); [|done]. by apply Inv_goToPage.
  - unfold setPageSize.
    destruct (paginationState (state t)) as [ps|] eqn:Hps; [|done].
    apply Inv_reprocess; [done|]. by intros ps' [= <-].
  - by apply Inv_hidden.
  - unfold showColumn. case_decide; [|done]. by apply Inv_hidden.
  - unfold hideColumn. case_decide; [done|]. by apply Inv_hidden.
  - unfold reset. apply Inv_reprocess; [done|]. simpl. rewrite Hopts.
    intros ps Hps. by apply (initPagination_pageSize o).
  - by apply Inv_reprocess.
Qed.

Lemma Reachable_Inv (o : TableOptions) (t : LiteTable) :
  options_ok o → Reachable o t → Inv o t.
Proof.
  intros Hok Hreach. induction Hreach as [|t c _ IH Hc].
  - by apply Inv_new.
  - by apply Inv_run.
Qed.

(** *** The stages of the engine are the stages defined on their own *)

Lemma filter_keep_rows (p : JsValue → bool) (rows : list JsValue) :
  filter (λ row, p row = true) rows = Pipeline.keep_rows p rows.
Proof.
  induction rows as [|row rows IH]; [done|].
  rewrite filter_cons. simpl. rewrite IH.
  destruct (p row); by case_decide.
Qed.

Lemma filterData_stage (o : Options) (rows : list JsValue) (term : string) :
  filterData o rows term = Pipeline.filter_stage o term rows.
Proof.
  unfold filterData, Pipeline.filter_stage, string_falsy.
  destruct (opt_searchable o), (String.eqb term ""); simpl; try done.
  apply filter_keep_rows.
Qed.

Lemma find_from_ignoring_index {A} (p : A → bool) (arr : list A) (base : nat) :
  find_from (λ x _, p x) base arr = List.find p arr.
Proof.
  revert base. induction arr as [|x arr IH]; intros base; simpl; [done|].
  destruct (p x); [done|apply IH].
Qed.

Lemma sortData_stage (o : Options) (rows : list JsValue) (s : SortState) :
  sortData o rows s = Pipeline.sort_stage o s rows.
Proof.
  unfold sortData, Pipeline.sort_stage, Pipeline.sort_column, string_falsy.
  destruct (columnId s) as [cid|]; [|done].
  destruct (direction s) as [d|]; [|done].
  destruct (String.eqb cid ""); [done|].
  unfold find_column, find_indexed. rewrite find_from_ignoring_index.
  destruct (List.find _ _) as [col|]; [|done].
  destruct (sortable col) as [[]|]; case_bool_decide; done || congruence.
Qed.

Lemma Inv_sortedData (o : TableOptions) (t : LiteTable) :
  Inv o t →
  filteredData (state t) =
    filterData (options t) (originalData (state t)) (searchTerm (state t)) ∧
  sortedData (state t) =
    sortData (options t) (filteredData (state t)) (sortState (state t)).
Proof.
  intros (_ & Hfix & _).
  pose proof (f_equal filteredData Hfix) as Hf.
  pose proof (f_equal sortedData Hfix) as Hs.
  unfold processData in Hf, Hs. cbn [filteredData sortedData] in Hf, Hs.
  split; [done|]. by rewrite <- Hf.
Qed.

(** The descriptor of a table is the one [createPaginationState] computes
    for the table's own page, page size and sorted rows. *)
Lemma Inv_paginationState (o : TableOptions) (t : LiteTable) (ps : PaginationState) :
  Inv o t → paginationState (state t) = Some ps →
  ps = createPaginationState (page ps) (pageSize ps)
         (Z.of_nat (length (sortedData (state t)))) (Some (pageSizeOptions ps))
  ∧ 0 < pageSize ps.
Proof.
  intros Hinv Hps. pose proof Hinv as (_ & Hfix & Hsize).
  split; [|by apply Hsize].
  destruct (Inv_sortedData o t Hinv) as [Hf Hs].
  pose proof (f_equal paginationState Hfix) as Hp.
  unfold processData in Hp. cbn [paginationState] in Hp.
  rewrite Hps, <- Hf, <- Hs in Hp. by injection Hp as Hp.
Qed.

Lemma Inv_paginatedData (o : TableOptions) (t : LiteTable) :
  Inv o t →
  paginatedData (state t) =
    paginateData (sortedData (state t)) (paginationState (state t)).
Proof.
  intros Hinv. pose proof Hinv as (_ & Hfix & _).
  destruct (Inv_sortedData o t Hinv) as [Hf Hs].
  pose proof (f_equal paginatedData Hfix) as Hp.
  pose proof (f_equal paginationState Hfix) as Hq.
  unfold processData in Hp, Hq. cbn [paginatedData paginationState] in Hp, Hq.
  rewrite <- Hf, <- Hs in Hp, Hq. by rewrite <- Hp, Hq.
Qed.

Lemma paginateData_stage (rows : list JsValue) (ps : PaginationState) :
  ps = createPaginationState (page ps) (pageSize ps)
         (Z.of_nat (length rows)) (Some (pageSizeOptions ps)) →
  0 < pageSize ps →
  paginateData rows (Some ps) = Pipeline.paginate_stage (Some ps) rows.
Proof.
  intros Hps Hsize. unfold paginateData, Pipeline.paginate_stage.
  pose proof (createPaginationState_fields (page ps) (pageSize ps)
                (Z.of_nat (length rows)) (Some (pageSizeOptions ps)))
    as (Htp & Hpage & _ & _ & Hstart & Hend).
  pose proof (createPaginationState_bounds (page ps) (pageSize ps)
                (Z.of_nat (length rows)) (Some (pageSizeOptions ps))
                Hsize ltac:(lia))
    as (Hp & Hs0 & Hse & Hen).
  rewrite <- Hps in Htp, Hpage, Hstart, Hend, Hp, Hs0, Hse, Hen.
  rewrite slice_take_drop by lia.
  rewrite <- Hstart.
  destruct (Z_le_gt_dec (startIndex ps) (Z.of_nat (length rows))) as [Hle|Hgt].
  - destruct (Z_le_gt_dec (startIndex ps + pageSize ps) (Z.of_nat (length rows))).
    + by rewrite Hend, Z.min_l, Z.add_simpl_l by lia.
    + rewrite !take_ge; [done| |]; rewrite length_drop; lia.
  - lia.
Qed.

(** C1. For every table reachable from its construction by calls of the
    public mutators, [getRows()] is the page of the sorted result of the
    filtered original rows: the filter stage reads the original rows in
    their original order, the sort stage reads only the filter's output,
    and the page is cut from the sort's output, where the three stages are
    the definitions of [Pipeline], which read nothing from the table's
    cached arrays. *)
Theorem getRows_is_paginate_sort_filter (o : TableOptions) (t : LiteTable) :
  options_ok o → Reachable o t →
  let st := getState t in
  let filtered :=
    Pipeline.filter_stage (options t) (searchTerm st) (originalData st) in
  let sorted := Pipeline.sort_stage (options t) (sortState st) filtered in
  filteredData st = filtered ∧
  getAllRows t = sorted ∧
  getRows t = Pipeline.paginate_stage (paginationState st) sorted.
Proof.
  intros Hok Hreach. pose proof (Reachable_Inv o t Hok Hreach) as Hinv.
  destruct (Inv_sortedData o t Hinv) as [Hf Hs].
  cbn zeta. unfold getState, getAllRows, getRows.
  rewrite <- filterData_stage, <- Hf, <- sortData_stage, <- Hs.
  split_and!; [done..|].
  rewrite (Inv_paginatedData o t Hinv).
  destruct (paginationState (state t)) as [ps|] eqn:Hps; [|done].
  destruct (Inv_paginationState o t ps Hinv Hps) as [Hdesc Hsize].
  by apply paginateData_stage.
Qed.

(** *** Pagination *)

Lemma createPaginationState_clamp_twice (r size n : Z) (opts : list Z) :
  let tp := Z.max 1 (ceil_div n size) in
  let ps1 := createPaginationState (Z.min (Z.max 1 r) tp) size n (Some opts) in
  createPaginationState (page ps1) (pageSize ps1) n (Some (pageSizeOptions ps1))
  = createPaginationState r size n (Some opts).
Proof.
  cbn zeta. unfold createPaginationState. cbn.
  set (tp := Z.max 1 (ceil_div n size)).
  assert (Z.min (Z.max 1 (Z.min (Z.max 1 (Z.min (Z.max 1 r) tp)) tp)) tp
          = Z.min (Z.max 1 r) tp) as -> by lia.
  done.
Qed.

Lemma goToPage_paginationState (o : TableOptions) (t : LiteTable)
    (cur : PaginationState) (r : Z) :
  Inv o t → paginationState (state t) = Some cur →
  paginationState (state (goToPage r t)) =
    Some (createPaginationState r (pageSize cur)
            (Z.of_nat (length (sortedData (state t))))
            (Some (pageSizeOptions cur))).
Proof.
  intros Hinv Hcur.
  destruct (Inv_sortedData o t Hinv) as [Hf Hs].
  destruct (Inv_paginationState o t cur Hinv Hcur) as [Hdesc _].
  unfold goToPage. rewrite Hcur.
  unfold reprocess, emit, with_state, processData.
  cbn [state paginationState set_paginationState originalData searchTerm sortState].
  rewrite <- Hf, <- Hs. f_equal.
  assert (totalPages cur
          = Z.max 1 (ceil_div (Z.of_nat (length (sortedData (state t)))) (pageSize cur)))
    as -> by (by rewrite Hdesc at 1).
  apply createPaginationState_clamp_twice.
Qed.

(** C5. For a positive page size and a row count that is not negative,
    the descriptor has [totalPages = max(1, ceil(totalRows / pageSize))],
    its page is the requested page clamped into [1, totalPages], and its
    start and end index bound a slice of the rows; with no rows there is
    one page and both indices are 0.  The descriptor of every reachable
    table is of this kind for the table's sorted rows, and [goToPage]
    clamps a page beyond the last one to the last and a page below 1
    to 1. *)
Theorem pagination_clamped (o : TableOptions) (t : LiteTable)
    (p size n requested : Z) (opts : option (list Z)) :
  options_ok o → Reachable o t → 0 < size → 0 ≤ n →
  let ps := createPaginationState p size n opts in
  ((∃ c, (c - 1) * size < n ∧ n ≤ c * size ∧ totalPages ps = Z.max 1 c) ∧
   1 ≤ page ps ≤ totalPages ps ∧
   (totalPages ps < p → page ps = totalPages ps) ∧
   (p < 1 → page ps = 1) ∧
   (1 ≤ p ≤ totalPages ps → page ps = p) ∧
   0 ≤ startIndex ps ∧ startIndex ps ≤ endIndex ps ∧ endIndex ps ≤ n ∧
   startIndex ps = (page ps - 1) * size ∧
   endIndex ps = Z.min (startIndex ps + size) n ∧
   (n = 0 → totalPages ps = 1 ∧ startIndex ps = 0 ∧ endIndex ps = 0)) ∧
  ∀ cur, paginationState (getState t) = Some cur →
    let rows := Z.of_nat (length (getAllRows t)) in
    cur = createPaginationState (page cur) (pageSize cur) rows
            (Some (pageSizeOptions cur)) ∧
    0 < pageSize cur ∧
    totalRows cur = rows ∧
    totalPages cur = Z.max 1 (ceil_div rows (pageSize cur)) ∧
    1 ≤ page cur ≤ totalPages cur ∧
    0 ≤ startIndex cur ∧ startIndex cur ≤ endIndex cur ∧ endIndex cur ≤ rows ∧
    ∃ next, paginationState (getState (goToPage requested t)) = Some next ∧
      totalPages next = totalPages cur ∧
      (totalPages cur < requested → page next = totalPages cur) ∧
      (requested < 1 → page next = 1) ∧
      (1 ≤ requested ≤ totalPages cur → page next = requested).
Proof.
  intros Hok Hreach Hsize Hn. cbn zeta. split.
  - pose proof (createPaginationState_bounds p size n opts Hsize Hn)
      as (Hp & Hs0 & Hse & Hen).
    pose proof (createPaginationState_fields p size n opts)
      as (Htp & Hpage & _ & _ & Hstart & Hend).
    cbn zeta in *.
    destruct (ceil_div_bounds n size Hsize) as [Hlo Hhi].
    split_and!; try done; try lia.
    + exists (ceil_div n size). by split_and!.
    + intros ->. rewrite (ceil_div_unique 0 size 0) in Htp by lia. nia.
  - intros cur Hcur. unfold getState, getAllRows in *.
    pose proof (Reachable_Inv o t Hok Hreach) as Hinv.
    destruct (Inv_paginationState o t cur Hinv Hcur) as [Hdesc Hcsize].
    set (rows := Z.of_nat (length (sortedData (state t)))) in *.
    pose proof (createPaginationState_bounds (page cur) (pageSize cur) rows
                  (Some (pageSizeOptions cur)) Hcsize ltac:(lia))
      as (Hp & Hs0 & Hse & Hen).
    pose proof (createPaginationState_fields (page cur) (pageSize cur) rows
                  (Some (pageSizeOptions cur)))
      as (Htp & _ & _ & Hrows & _).
    cbn zeta in *. rewrite <- Hdesc in Hp, Hs0, Hse, Hen, Htp, Hrows.
    split_and!; try done; try lia.
    rewrite (goToPage_paginationState o t cur requested Hinv Hcur).
    eexists. split; [done|]. fold rows.
    pose proof (createPaginationState_fields requested (pageSize cur) rows
                  (Some (pageSizeOptions cur)))
      as (Htp' & Hpage' & _).
    cbn zeta in *. rewrite <- Htp in Htp'. rewrite Htp' in Hpage'.
    split_and!; [done|lia..].
Qed.

(** *** Sorting *)

Lemma sortBy_spec (x : string) (t : LiteTable) (column : Column) :
  find_column (options t) x = Some column → sortable column ≠ Some false →
  options (sortBy x None t) = options t ∧
  sortState (state (sortBy x None t)) =
    {| columnId := Some x;
       direction :=
         Some (if bool_decide (columnId (sortState (state t)) = Some x)
               then match direction (sortState (state t)) with
                    | Some asc => desc
                    | _ => asc
                    end
               else asc) |}.
Proof.
  intros Hfind Hsortable. unfold sortBy. rewrite Hfind.
  assert (∀ (A : Type) (a b : A),
            match sortable column with Some false => a | _ => b end = b) as Hs.
  { intros. by destruct (sortable column) as [[]|]. }
  rewrite Hs. split; [done|].
  unfold reprocess, emit, with_state, processData.
  cbn [state sortState set_sortState]. do 2 f_equal.
  destruct (columnId (sortState (state t))) as [c|]; [|by case_bool_decide].
  destruct (String.eqb_spec c x) as [->|Hne].
  - by rewrite bool_decide_eq_true_2.
  - rewrite bool_decide_eq_false_2; [done|congruence].
Qed.

(** C7. For a sortable column [x], [sortBy(x)] without a direction sorts
    ascending when [x] is not the sorted column, and flips the direction
    when it is; the sort state never returns to unsorted, each further
    call flips the direction again, and three calls from a table not
    sorted by [x] give asc, desc, asc. *)
Theorem sortBy_toggles (x : string) (t : LiteTable) (column : Column) :
  find_column (options t) x = Some column → sortable column ≠ Some false →
  let t1 := sortBy x None t in
  let t2 := sortBy x None t1 in
  let t3 := sortBy x None t2 in
  let dir u := direction (sortState (getState u)) in
  (columnId (sortState (getState t)) ≠ Some x → dir t1 = Some asc) ∧
  (columnId (sortState (getState t)) = Some x →
     dir t1 = Some (match dir t with Some asc => desc | _ => asc end)) ∧
  (∃ d1 d2 d3,
     sortState (getState t1) = {| columnId := Some x; direction := Some d1 |} ∧
     sortState (getState t2) = {| columnId := Some x; direction := Some d2 |} ∧
     sortState (getState t3) = {| columnId := Some x; direction := Some d3 |} ∧
     d2 = flip_direction d1 ∧ d3 = flip_direction d2) ∧
  (columnId (sortState (getState t)) ≠ Some x →
     dir t1 = Some asc ∧ dir t2 = Some desc ∧ dir t3 = Some asc).
Proof.
  intros Hfind Hsortable. cbn zeta. unfold getState.
  destruct (sortBy_spec x t column Hfind Hsortable) as [Ho1 Hs1].
  rewrite <- Ho1 in Hfind.
  destruct (sortBy_spec x _ column Hfind Hsortable) as [Ho2 Hs2].
  rewrite <- Ho2 in Hfind.
  destruct (sortBy_spec x _ column Hfind Hsortable) as [Ho3 Hs3].
  rewrite Hs1 in Hs2. cbn [columnId direction] in Hs2.
  rewrite bool_decide_eq_true_2 in Hs2 by done.
  rewrite Hs2 in Hs3. cbn [columnId direction] in Hs3.
  rewrite bool_decide_eq_true_2 in Hs3 by done.
  rewrite Hs1, Hs2, Hs3. cbn [direction].
  split_and!.
  - intros Hne. by rewrite bool_decide_eq_false_2.
  - intros Heq. by rewrite bool_decide_eq_true_2.
  - eexists _, _, _. split_and!; [done..| |].
    + by destruct (if bool_decide _ then _ else _).
    + by destruct (if bool_decide _ then _ else _).
  - intros Hne. by rewrite bool_decide_eq_false_2.
Qed.

Lemma compareValues_nullish (a b : JsValue) (dir : SortDirection) :
  is_nullish a = true → is_nullish b = false →
  compareValues a b dir = 1 ∧ compareValues b a dir = -1.
Proof.
  intros Ha Hb. unfold compareValues. rewrite Ha, Hb. by destruct a.
Qed.

(** C6. When exactly one of two cell values is null or undefined, the
    default comparator orders it after the other one, whatever the
    direction.  Hence sorting rows (none of them itself [undefined]) by a
    column that uses the default comparator returns the same rows with
    every row whose cell is null or undefined behind every row whose cell
    is not, ascending and descending. *)
Theorem nulls_sort_last (o : Options) (column : Column) (d : Direction)
    (rows : list JsValue) (a b : JsValue) (dir : SortDirection) :
  find_column o (id column) = Some column →
  sortable column ≠ Some false →
  sortFn column = None →
  id column ≠ "" →
  Forall (λ row, is_undefined row = false) rows →
  (is_nullish a = true → is_nullish b = false →
     0 < compareValues a b dir ∧ compareValues b a dir < 0) ∧
  let sorted :=
    sortData o rows {| columnId := Some (id column); direction := Some d |} in
  sorted ≡ₚ rows ∧
  ∃ front back, sorted = front ++ back ∧
    Forall (λ row, is_nullish (getCellValue row column) = false) front ∧
    Forall (λ row, is_nullish (getCellValue row column) = true) back.
Proof.
  intros Hfind Hsortable HsortFn Hid Hdefined. split.
  - intros Ha Hb. destruct (compareValues_nullish a b dir Ha Hb) as [-> ->]. lia.
  - cbn zeta. unfold sortData. cbn [columnId direction].
    unfold string_falsy. rewrite (proj2 (String.eqb_neq _ _) Hid), Hfind.
    assert (∀ (X : Type) (u v : X),
              match sortable column with Some false => u | _ => v end = v) as ->.
    { intros. by destruct (sortable column) as [[]|]. }
    split; [apply sort_values_perm|].
    rewrite sort_values_defined by done.
    apply (array_sort_marked_last (row_comparator column d)
             (λ row, is_nullish (getCellValue row column))).
    + intros x y Hx Hy. unfold row_comparator. rewrite HsortFn.
      destruct (compareValues_nullish _ _ (Some d) Hx Hy) as [-> _]. lia.
    + intros x y Hx Hy. unfold row_comparator. rewrite HsortFn.
      destruct (compareValues_nullish _ _ (Some d) Hy Hx) as [_ ->]. lia.
Qed.

(** *** Row lookup *)

(** C8 (as the code has it). [getRowById(id)] returns the first row of
    [originalData], in index order, whose derived identity is [id]: when
    several rows derive the same identity, the one with the lowest index
    is returned; when none does, the result is undefined. *)
Theorem getRowById_first_match (t : LiteTable) (rid : string) :
  let derived row (i : nat) := opt_getRowId (options t) row i in
  match getRowById t rid with
  | Some row =>
      ∃ i, originalData (getState t) !! i = Some row ∧ derived row i = rid ∧
           ∀ j other, (j < i)%nat → originalData (getState t) !! j = Some other →
                      derived other j ≠ rid
  | None =>
      ∀ j other, originalData (getState t) !! j = Some other → derived other j ≠ rid
  end.
Proof.
  cbn zeta. unfold getRowById, find_indexed, getState.
  destruct (find_from _ _ _) as [row|] eqn:Hfind.
  - apply find_from_Some in Hfind as (i & Hi & Hp & Hmin).
    exists i. split_and!; [done|by apply String.eqb_eq|].
    intros j other Hj Hother. apply String.eqb_neq. by apply (Hmin j).
  - intros j other Hother. apply String.eqb_neq.
    by apply (proj1 (find_from_None _ _ _) Hfind j).
Qed.

(** *** Reset *)

Lemma run_options (t : LiteTable) (c : Call) : options (run t c) = options t.
Proof.
  destruct c; simpl; try done.
  - unfold sortBy. destruct (find_column _ _) as [column|]; [|done].
    by destruct (sortable column) as [[]|].
  - unfold goToPage. by destruct (paginationState _).
  - unfold nextPage, goToPage. destruct (paginationState _) as [ps|]; [|done].
    by destruct (hasNextPage ps).
  - unfold prevPage, goToPage. destruct (paginationState _) as [ps|]; [|done].
    by destruct (hasPrevPage ps).
  - unfold setPageSize. by destruct (paginationState _).
  - unfold showColumn. by case_decide.
  - unfold hideColumn. by case_decide.
Qed.

Lemma runs_options (t : LiteTable) (calls : list Call) :
  options (foldl run t calls) = options t.
Proof.
  revert t. induction calls as [|c calls IH]; intros t; [done|].
  simpl. by rewrite IH, run_options.
Qed.

Lemma Reachable_options (o : TableOptions) (t : LiteTable) :
  Reachable o t → options t = init_options o.
Proof.
  induction 1 as [|t c _ IH _]; [done|]. by rewrite run_options.
Qed.

(** C10. [reset()] rebuilds the whole state from the options given to the
    constructor, the data included: after [setData(rows')], whatever calls
    follow, [reset()] leaves the table with the state of a freshly
    constructed one, so [originalData] is the constructor's data and
    [rows'] is gone. *)
Theorem reset_restores_construction_data (o : TableOptions) (t : LiteTable)
    (rows' : list JsValue) (calls : list Call) :
  Reachable o t →
  let t' := foldl run (setData rows' t) calls in
  originalData (getState (setData rows' t)) = rows' ∧
  originalData (getState (reset t')) = data o ∧
  getState (reset t') = getState (new_LiteTable o).
Proof.
  intros Hreach. cbn zeta. unfold getState.
  assert (options (foldl run (setData rows' t) calls) = init_options o) as Hopts.
  { rewrite runs_options. change (options t = init_options o).
    by apply Reachable_options. }
  assert (state (reset (foldl run (setData rows' t) calls))
          = state (new_LiteTable o)) as Hstate.
  { unfold reset, reprocess, emit, with_state, new_LiteTable.
    cbn [state]. by rewrite Hopts. }
  split_and!; [done| |done].
  by rewrite Hstate.
Qed.

End WithHost.
End TableProofs.

(** ** The virtual-scroll engine *)

Module VirtualScrollProofs.
Import Js VirtualScroll JsFacts.

Section Rows.
Context {TData : Type}.

(** What the calculation does guarantee without overscan: when the scroll
    offset is a whole number of rows, every row that intersects the viewport
    is in the computed range. *)
Lemma aligned_scroll_covers_viewport (rows : list TData)
    (c : VirtualScrollConfig) (k i : Z) :
  0 < rowHeight c → 0 < containerHeight c → overscan c = Some 0 →
  0 ≤ k → 0 ≤ i < Z.of_nat (length rows) →
  intersects_viewport c (k * rowHeight c) i →
  in_range (calculateVirtualScroll rows c (k * rowHeight c)) i.
Proof.
  intros Hrow Hcont Hover Hk Hi [Hlo Hhi].
  unfold in_range, calculateVirtualScroll. cbn [startIndex endIndex].
  rewrite Hover. change (default 5 (Some 0)) with 0.
  rewrite Z.div_mul by lia.
  destruct (ceil_div_bounds (containerHeight c) (rowHeight c) Hrow) as [_ Hceil].
  set (v := ceil_div (containerHeight c) (rowHeight c)) in *.
  assert (i < k + v) by nia.
  assert (k ≤ i) by nia.
  lia.
Qed.

Lemma getVisibleRows_handleScroll (rows : list TData) (c : VirtualScrollConfig)
    (top : Z) :
  getVisibleRows (handleScroll top (new_VirtualScrollManager rows c)) =
  let ov := default 5 (overscan c) in
  let start := Z.max 0 (top / rowHeight c - ov) in
  slice rows start
    (Z.min (Z.of_nat (length rows))
           (start + ceil_div (containerHeight c) (rowHeight c) + ov * 2)).
Proof. done. Qed.

(** C9 (as the code has it). The calculation is total: no input makes it
    throw.  With an empty backing array [getVisibleRows()] is empty for
    every scrollTop.  With a one-row backing array it returns exactly that
    row as long as the scroll offset is at most [overscan] rows down
    ([floor(scrollTop / rowHeight) <= overscan]) and the config asks for at
    least one row ([ceil(containerHeight / rowHeight) + 2 * overscan >= 1]),
    and the empty list otherwise. *)
Theorem degenerate_rows (c : VirtualScrollConfig) (row : TData) (top : Z) :
  rowHeight c ≠ 0 →
  let ov := default 5 (overscan c) in
  getVisibleRows (handleScroll top (new_VirtualScrollManager (@nil TData) c)) = [] ∧
  getVisibleRows (handleScroll top (new_VirtualScrollManager [row] c)) =
    if (top / rowHeight c <=? ov) &&
       (1 <=? ceil_div (containerHeight c) (rowHeight c) + 2 * ov)
    then [row] else [].
Proof.
  intros _. cbn zeta. rewrite !getVisibleRows_handleScroll. cbn zeta.
  split; [apply slice_nil|].
  set (ov := default 5 (overscan c)).
  set (q := top / rowHeight c).
  set (v := ceil_div (containerHeight c) (rowHeight c)).
  rewrite slice_singleton by lia. cbn [length]. change (Z.of_nat 1) with 1.
  destruct (Z.eqb_spec (Z.max 0 (q - ov)) 0), (Z.leb_spec q ov);
    destruct (Z.leb_spec 1 (Z.min 1 (Z.max 0 (q - ov) + v + ov * 2))),
             (Z.leb_spec 1 (v + 2 * ov));
    cbn [andb]; done || lia.
Qed.

End Rows.

(** C4 (the code at the failing input). Three rows of height 10, a
    container of height 10, no overscan, scrolled by 5 pixels, a valid
    offset: the computed range is [0, 1), yet row 1, the pixels 10 to 20,
    intersects the viewport, the pixels 5 to 15. *)
Theorem unaligned_scroll_misses_visible_row :
  let c := {| rowHeight := 10; overscan := Some 0; containerHeight := 10;
              enabled := None |} in
  let rows := ["r0"; "r1"; "r2"]%string in
  let s := calculateVirtualScroll rows c 5 in
  0 ≤ 5 ≤ totalHeight s - containerHeight c ∧
  startIndex s = 0 ∧ endIndex s = 1 ∧
  getVirtualRows rows s = ["r0"%string] ∧
  rows !! 1%nat = Some "r1"%string ∧
  intersects_viewport c 5 1 ∧
  ¬ in_range s 1.
Proof.
  cbn zeta. unfold intersects_viewport, in_range.
  vm_compute. split_and!; try done.
  by intros [_ ?].
Qed.

End VirtualScrollProofs.

(** ** The server-side fetch engine *)

Module ServerSideProofs.
Import Js ServerSide Notions Samples.

#[local] Existing Instance ascii_host.

Lemma settle_aborted (c : nat) (r : FetchResult) (m : ServerSideManager) :
  existsb (λ q, Nat.eqb (req_signal q) c) (inflight m) = true →
  c ∈ aborted m →
  state (settle c r m) = state m ∧
  onError_calls (settle c r m) = onError_calls m ∧
  aborted (settle c r m) = aborted m ∧
  config (settle c r m) = config m ∧
  inflight (settle c r m) = filter (λ q, req_signal q ≠ c) (inflight m).
Proof.
  intros Hin Hab. unfold settle, delivered. rewrite Hin.
  rewrite decide_True by done. done.
Qed.

Lemma settle_live (c : nat) (r : FetchResult) (m : ServerSideManager) :
  existsb (λ q, Nat.eqb (req_signal q) c) (inflight m) = true →
  c ∉ aborted m →
  (state (settle c r m), onError_calls (settle c r m))
    = committed (config m) r (state m) (onError_calls m) ∧
  aborted (settle c r m) = aborted m ∧
  config (settle c r m) = config m ∧
  inflight (settle c r m) = filter (λ q, req_signal q ≠ c) (inflight m).
Proof.
  intros Hin Hab. unfold settle, delivered, committed. rewrite Hin.
  rewrite decide_False by done.
  destruct (after_await _ _ _) as [s'|e]; [done|].
  by destruct (String.eqb _ _).
Qed.

(** On a manager with no request in flight, the claim of C2 holds: after
    [fetchData(A)] then [fetchData(B)], whichever of the two network steps
    completes first and whatever their results, the observable state and
    the calls of [onError] are those of [fetchData(B)] alone. *)
Lemma fetch_pair_on_idle_manager (m : ServerSideManager)
    (pA pB : ServerRequestParams) (rA rB : FetchResult) :
  inflight m = [] →
  (∀ c, c ∈ aborted m → (c < next_controller m)%nat) →
  (∀ c, abortController m = Some c → (c < next_controller m)%nat) →
  let cA := next_controller m in
  let cB := S cA in
  let both := fetchData pB (fetchData pA m) in
  let only_B := settle cA rB (fetchData pB m) in
  let A_then_B := settle cB rB (settle cA rA both) in
  let B_then_A := settle cA rA (settle cB rB both) in
  observable A_then_B = observable only_B ∧
  onError_calls A_then_B = onError_calls only_B ∧
  observable B_then_A = observable only_B ∧
  onError_calls B_then_A = onError_calls only_B.
Proof.
  intros Hidle Hfresh Hctrl. cbn zeta.
  set (cA := next_controller m).
  set (mA := fetchData pA m). set (both := fetchData pB mA).
  set (mB := fetchData pB m).
  assert (∀ c, c ∈ aborted mA → (c < cA)%nat) as HfreshA.
  { intros c. unfold mA, fetchData. cbn [aborted].
    destruct (abortController m) as [c0|] eqn:Hc0; [|by apply Hfresh].
    intros [?| ->%elem_of_singleton]%elem_of_union; [by apply Hfresh|by apply Hctrl]. }
  assert (aborted mB = aborted mA) as HabB by done.
  assert (aborted both = aborted mA ∪ {[ cA ]}) as Hab by done.
  assert (inflight both
          = [ {| req_url := c_url (config m);
                 req_query := buildUrl (config m)
                   match c_transformRequest (config m) with
                   | Some f => f pA
                   | None => buildDefaultParams (config m) pA
                   end;
                 req_method := c_method (config m);
                 req_body := match c_method (config m) with
                             | POST => Some match c_transformRequest (config m) with
                                            | Some f => f pA
                                            | None => buildDefaultParams (config m) pA
                                            end
                             | GET => None
                             end;
                 req_signal := cA |};
              {| req_url := c_url (config m);
                 req_query := buildUrl (config m)
                   match c_transformRequest (config m) with
                   | Some f => f pB
                   | None => buildDefaultParams (config m) pB
                   end;
                 req_method := c_method (config m);
                 req_body := match c_method (config m) with
                             | POST => Some match c_transformRequest (config m) with
                                            | Some f => f pB
                                            | None => buildDefaultParams (config m) pB
                                            end
                             | GET => None
                             end;
                 req_signal := S cA |} ]) as Hinf.
  { unfold both, mA, fetchData. cbn [inflight config next_controller].
    by rewrite Hidle. }
  assert (cA ∈ aborted both) as HA_ab by (rewrite Hab; set_solver).
  assert (S cA ∉ aborted both) as HB_live.
  { rewrite Hab. intros [?%HfreshA| ?%elem_of_singleton]%elem_of_union; lia. }
  assert (cA ∉ aborted mB) as HB_only.
  { rewrite HabB. intros ?%HfreshA. lia. }
  (* B alone *)
  destruct (settle_live cA rB mB) as (HsB & _); [|done|].
  { unfold mB, fetchData. cbn [inflight req_signal]. rewrite Hidle.
    cbn [app existsb req_signal]. fold cA. by rewrite Nat.eqb_refl. }
  (* A settles first *)
  destruct (settle_aborted cA rA both) as (HsA & HcA & HaA & HgA & HiA); [|done|].
  { rewrite Hinf. cbn [existsb req_signal]. by rewrite Nat.eqb_refl. }
  destruct (settle_live (S cA) rB (settle cA rA both)) as (HsAB & _).
  { rewrite HiA, Hinf. rewrite !filter_cons, filter_nil. cbn [req_signal].
    rewrite decide_False by (intros ?; done).
    rewrite decide_True by lia.
    cbn [existsb req_signal]. by rewrite Nat.eqb_refl. }
  { by rewrite HaA. }
  (* B settles first *)
  destruct (settle_live (S cA) rB both) as (HsB1 & HaB1 & HgB1 & HiB1); [|done|].
  { rewrite Hinf. cbn [existsb req_signal]. rewrite Nat.eqb_refl.
    by rewrite orb_true_r. }
  destruct (settle_aborted cA rA (settle (S cA) rB both)) as (HsBA & HcBA & _).
  { rewrite HiB1, Hinf. rewrite !filter_cons, filter_nil. cbn [req_signal].
    rewrite decide_True by lia.
    rewrite decide_False by (intros ?; done).
    cbn [existsb req_signal]. by rewrite Nat.eqb_refl. }
  { by rewrite HaB1. }
  rewrite HsA, HcA, HgA in HsAB.
  pose proof (f_equal fst HsB) as HsB_s. pose proof (f_equal snd HsB) as HsB_c.
  pose proof (f_equal fst HsAB) as HsAB_s. pose proof (f_equal snd HsAB) as HsAB_c.
  pose proof (f_equal fst HsB1) as HsB1_s. pose proof (f_equal snd HsB1) as HsB1_c.
  cbn [fst snd] in *.
  unfold observable.
  rewrite HsBA, HcBA, HsB_s, HsB_c, HsAB_s, HsAB_c, HsB1_s, HsB1_c.
  done.
Qed.

(** C2 (the code at the failing input). A request [Z] is in flight;
    [fetchData(A)] aborts it; the activation of [Z] resumes and its
    [finally] block clears [abortController], which holds the controller of
    [A]; [fetchData(B)] is issued while [A] is still in flight and finds no
    controller to abort.  [B] completes, then [A] completes: the final
    state is the outcome of [A], and when [A] fails its error is stored
    and passed to [onError]. *)
Theorem superseded_fetch_commits_state :
  let rowsA := [user 1 "from A" JNull] in
  let rowsB := [user 2 "from B" JNull; user 3 "from B" JNull] in
  let network_error := {| name := "TypeError"; message := "Failed to fetch" |} in
  let with_A :=
    run (new_ServerSideManager plain_config)
        [ev_fetchData (params_of_page 1);
         ev_fetchData (params_of_page 2);
         ev_settle 0 (ok_response [])] in
  let with_B := step with_A (ev_fetchData (params_of_page 3)) in
  let after_B := step with_B (ev_settle 2 (ok_response rowsB)) in
  let final := step after_B (ev_settle 1 (ok_response rowsA)) in
  let failed := step after_B (ev_settle 1 (Rejected network_error)) in
  map req_signal (inflight with_A) = [1%nat] ∧
  map req_signal (inflight with_B) = [1%nat; 2%nat] ∧
  lastParams (getState final) = Some (params_of_page 3) ∧
  observable after_B = (rowsB, 2, None, false) ∧
  observable final = (rowsA, 1, None, false) ∧
  observable failed = ([], 0, Some network_error, false) ∧
  onError_calls failed = [network_error].
Proof. vm_compute. by split_and!. Qed.

(** C3 (the code at the failing input). [fetchData(A)], [fetchData(B)],
    the aborted [A] settles, [fetchData(C)]: the activation of [A] runs its
    [finally] block and clears [abortController], which by then holds the
    controller of [B]; so [fetchData(C)] finds no controller to abort, and
    the requests of [B] and of [C] are both in flight with signals that
    never fired. *)
Theorem two_requests_uncancelled :
  let fresh := new_ServerSideManager plain_config in
  let before_C :=
    run fresh [ev_fetchData (params_of_page 1);
               ev_fetchData (params_of_page 2);
               ev_settle 0 (ok_response [])] in
  let m := step before_C (ev_fetchData (params_of_page 3)) in
  map req_signal (inflight before_C) = [1%nat] ∧
  abortController before_C = None ∧
  map req_signal (inflight m) = [1%nat; 2%nat] ∧
  map req_signal (active m) = [1%nat; 2%nat] ∧
  length (active m) = 2%nat.
Proof. vm_compute. by split_and!. Qed.

End ServerSideProofs.

(** ** The theorems at sample inputs *)

Module Instances.
Import Js Types Utils Table Samples.

#[local] Existing Instance ascii_host.

Lemma browsed_users_reachable : Reachable user_options browsed_users.
Proof.
  unfold browsed_users.
  repeat (apply reach_call; [|exact I]). apply reach_new.
Defined.

Lemma user_options_ok : options_ok user_options.
Proof. unfold options_ok. simpl. lia. Defined.

Example browsed_users_rows :
  getAllRows browsed_users =
    [user 2 "alice" JNull; user 4 "dave" JUndefined; user 5 "Eve" (JNumber 35)] ∧
  getRows browsed_users = [user 5 "Eve" (JNumber 35)].
Proof. by vm_compute. Qed.

Lemma getRows_is_paginate_sort_filter_witness :
  options_ok user_options ∧ Reachable user_options browsed_users ∧
  getRows browsed_users =
    Pipeline.paginate_stage (paginationState (getState browsed_users))
      (Pipeline.sort_stage (options browsed_users)
         (sortState (getState browsed_users))
         (Pipeline.filter_stage (options browsed_users)
            (searchTerm (getState browsed_users))
            (originalData (getState browsed_users)))).
Proof.
  split; [exact user_options_ok|]. split; [exact browsed_users_reachable|].
  exact (proj2 (proj2 (TableProofs.getRows_is_paginate_sort_filter
                         user_options browsed_users
                         user_options_ok browsed_users_reachable))).
Defined.

Lemma pagination_clamped_witness :
  options_ok user_options ∧ Reachable user_options browsed_users ∧
  0 < 10 ∧ 0 ≤ 25 ∧
  1 ≤ page (createPaginationState 7 10 25 None)
    ≤ totalPages (createPaginationState 7 10 25 None).
Proof.
  split; [exact user_options_ok|]. split; [exact browsed_users_reachable|].
  split; [lia|]. split; [lia|].
  exact (proj1 (proj2 (proj1 (TableProofs.pagination_clamped
                         user_options browsed_users 7 10 25 99 None
                         user_options_ok browsed_users_reachable
                         ltac:(lia) ltac:(lia))))).
Defined.

Example goToPage_beyond_last :
  page <$> paginationState (getState (goToPage 99 browsed_users)) = Some 2 ∧
  page <$> paginationState (getState (goToPage (-3) browsed_users)) = Some 1.
Proof. by vm_compute. Qed.

Example users_by_age :
  sortData (init_options user_options) users
    {| columnId := Some "age"; direction := Some asc |} =
    [user 3 "Bob" (JNumber 29); user 5 "Eve" (JNumber 35);
     user 1 "Carol" (JNumber 41); user 2 "alice" JNull;
     user 4 "dave" JUndefined] ∧
  sortData (init_options user_options) users
    {| columnId := Some "age"; direction := Some desc |} =
    [user 1 "Carol" (JNumber 41); user 5 "Eve" (JNumber 35);
     user 3 "Bob" (JNumber 29); user 2 "alice" JNull;
     user 4 "dave" JUndefined].
Proof. by vm_compute. Qed.

Lemma nulls_sort_last_witness :
  find_column (init_options user_options) (id (plain_column "age"))
    = Some (plain_column "age") ∧
  sortable (plain_column "age") ≠ Some false ∧
  sortFn (plain_column "age") = None ∧
  id (plain_column "age") ≠ "" ∧
  Forall (λ row, is_undefined row = false) users ∧
  sortData (init_options user_options) users
    {| columnId := Some "age"; direction := Some desc |} ≡ₚ users.
Proof.
  assert (Forall (λ row, is_undefined row = false) users) as Hdefined
    by (repeat constructor).
  split; [reflexivity|]. split; [discriminate|]. split; [reflexivity|].
  split; [discriminate|]. split; [exact Hdefined|].
  exact (proj1 (proj2 (TableProofs.nulls_sort_last
                         (init_options user_options) (plain_column "age") desc
                         users JNull (JNumber 3) (Some asc)
                         eq_refl ltac:(discriminate) eq_refl
                         ltac:(discriminate) Hdefined))).
Defined.

Lemma sortBy_toggles_witness :
  find_column (options (new_LiteTable user_options)) "name"
    = Some (plain_column "name") ∧
  sortable (plain_column "name") ≠ Some false ∧
  ∃ d1 d2 d3,
    sortState (getState (sortBy "name" None (new_LiteTable user_options)))
      = {| columnId := Some "name"; direction := Some d1 |} ∧
    sortState (getState (sortBy "name" None
                 (sortBy "name" None (new_LiteTable user_options))))
      = {| columnId := Some "name"; direction := Some d2 |} ∧
    sortState (getState (sortBy "name" None (sortBy "name" None
                 (sortBy "name" None (new_LiteTable user_options)))))
      = {| columnId := Some "name"; direction := Some d3 |} ∧
    d2 = Notions.flip_direction d1 ∧ d3 = Notions.flip_direction d2.
Proof.
  split; [reflexivity|]. split; [discriminate|].
  exact (proj1 (proj2 (proj2 (TableProofs.sortBy_toggles
                         "name" (new_LiteTable user_options) (plain_column "name")
                         eq_refl ltac:(discriminate))))).
Defined.

Example three_sortBy_calls :
  let dir t := direction (sortState (getState t)) in
  let t1 := sortBy "name" None (new_LiteTable user_options) in
  let t2 := sortBy "name" None t1 in
  let t3 := sortBy "name" None t2 in
  dir t1 = Some asc ∧ dir t2 = Some desc ∧ dir t3 = Some asc.
Proof. by vm_compute. Qed.

(** C8 (counterexample). Two rows derive the identity "7"; the lookup
    returns the one at index 0, not the later one at index 1. *)
Lemma getRowById_not_last_write_wins :
  let t := new_LiteTable twin_options in
  let first := user 7 "first" (JNumber 1) in
  let second := user 7 "second" (JNumber 2) in
  originalData (getState t) = [first; second] ∧
  opt_getRowId (options t) first 0 = "7" ∧
  opt_getRowId (options t) second 1 = "7" ∧
  getRowById t "7" = Some first ∧
  getRowById t "7" ≠ Some second.
Proof. vm_compute. by split_and!. Qed.

Lemma reset_restores_construction_data_witness :
  Reachable user_options browsed_users ∧
  originalData (getState (setData twins browsed_users)) = twins ∧
  originalData (getState
    (reset (foldl run (setData twins browsed_users) [call_sortBy "id" None])))
    = users.
Proof.
  split; [exact browsed_users_reachable|].
  pose proof (TableProofs.reset_restores_construction_data
                user_options browsed_users twins [call_sortBy "id" None]
                browsed_users_reachable) as (Hset & Hreset & _).
  split; [exact Hset|exact Hreset].
Defined.

Import VirtualScroll.

Lemma degenerate_rows_witness :
  rowHeight scroll_config ≠ 0 ∧
  getVisibleRows (handleScroll 100 (new_VirtualScrollManager ["only"%string] scroll_config))
    = ["only"%string].
Proof.
  split; [discriminate|].
  exact (proj2 (VirtualScrollProofs.degenerate_rows
                  scroll_config "only"%string 100 ltac:(discriminate))).
Defined.

(** C9 (counterexample). One row of height 48 in a container of height
    600 with the default overscan of 5: scrolled by 288 pixels, six rows
    down, [getVisibleRows()] is empty. *)
Lemma single_row_far_scroll_is_empty :
  let m := handleScroll 288 (new_VirtualScrollManager ["only"%string] scroll_config) in
  getVisibleRows m = [] ∧ getVisibleRows m ≠ ["only"%string].
Proof. vm_compute. by split. Qed.

End Instances.

(** ** More about the table engine *)

Set Warnings "-clear-no-such-hyp".

Module TableMore.
Import Js Types Utils Table Notions JsFacts TableProofs.

Section WithHost.
Context `{Host}.

Local Arguments processData : simpl never.

(** The pipeline reads five fields of the state and nothing else. *)
Lemma processData_ext (o : Options) (a b : TableState) :
  originalData a = originalData b → searchTerm a = searchTerm b →
  sortState a = sortState b → paginationState a = paginationState b →
  hiddenColumns a = hiddenColumns b →
  processData o a = processData o b.
Proof.
  intros H1 H2 H3 H4 H5. unfold processData. by rewrite H1, H2, H3, H4, H5.
Qed.

Lemma sortData_perm (o : Options) (rows : list JsValue) (s : SortState) :
  sortData o rows s ≡ₚ rows.
Proof.
  unfold sortData.
  destruct (columnId s) as [cid|]; [|done].
  destruct (direction s) as [d|]; [|done].
  destruct (string_falsy cid); [done|].
  destruct (find_column o cid) as [column|]; [|done].
  destruct (sortable column) as [[]|]; try done; apply sort_values_perm.
Qed.

Lemma filterData_sublist (o : Options) (rows : list JsValue) (term : string) :
  filterData o rows term `sublist_of` rows.
Proof.
  unfold filterData. destruct (_ || _); [done|]. apply sublist_filter.
Qed.

(** The state after [goToPage]: the descriptor and the page change, the
    rest stays. *)
Lemma goToPage_state (o : TableOptions) (t : LiteTable) (cur : PaginationState)
    (r : Z) :
  Inv o t → paginationState (state t) = Some cur →
  let next := createPaginationState r (pageSize cur)
                (Z.of_nat (length (sortedData (state t))))
                (Some (pageSizeOptions cur)) in
  state (goToPage r t) =
    {| originalData := originalData (state t);
       filteredData := filteredData (state t);
       sortedData := sortedData (state t);
       paginatedData := paginateData (sortedData (state t)) (Some next);
       sortState := sortState (state t);
       searchTerm := searchTerm (state t);
       paginationState := Some next;
       hiddenColumns := hiddenColumns (state t) |}.
Proof.
  intros Hinv Hcur. cbn zeta.
  destruct (Inv_sortedData o t Hinv) as [Hf Hs].
  pose proof (goToPage_paginationState o t cur r Hinv Hcur) as Hnext.
  unfold goToPage in *. rewrite Hcur in *.
  unfold reprocess, emit, with_state, processData in *.
  cbn [state paginationState set_paginationState originalData searchTerm
       sortState hiddenColumns] in *.
  rewrite <- Hf, <- Hs in *. by rewrite Hnext.
Qed.

(** *** Searching and paging *)

Lemma createPaginationState_first_page (size n : Z) (opts : option (list Z)) :
  let ps := createPaginationState 1 size n opts in
  page ps = 1 ∧ startIndex ps = 0 ∧ pageSize ps = size.
Proof.
  unfold createPaginationState. cbn [page startIndex pageSize].
  assert (Z.min (Z.max 1 1) (Z.max 1 (ceil_div n size)) = 1) as -> by lia.
  done.
Qed.


Lemma Inv_flags (o : TableOptions) (t : LiteTable) (cur : PaginationState) :
  Inv o t → paginationState (state t) = Some cur →
  hasNextPage cur = (page cur <? totalPages cur) ∧
  hasPrevPage cur = (1 <? page cur) ∧
  1 ≤ page cur ≤ totalPages cur.
Proof.
  intros Hinv Hcur.
  destruct (Inv_paginationState o t cur Hinv Hcur) as [Hdesc Hsize].
  pose proof (createPaginationState_bounds (page cur) (pageSize cur)
                (Z.of_nat (length (sortedData (state t))))
                (Some (pageSizeOptions cur)) Hsize ltac:(lia)) as (Hp & _).
  cbn zeta in Hp.
  set (ps := createPaginationState _ _ _ _) in *.
  assert (hasNextPage ps = (page ps <? totalPages ps)) as Hn by done.
  assert (hasPrevPage ps = (1 <? page ps)) as Hv by done.
  by rewrite <- Hdesc in Hp, Hn, Hv.
Qed.

Lemma goToPage_page (o : TableOptions) (t : LiteTable) (cur : PaginationState)
    (r : Z) :
  Inv o t → paginationState (state t) = Some cur →
  1 ≤ r ≤ totalPages cur →
  ∃ next, paginationState (state (goToPage r t)) = Some next ∧
    page next = r ∧ pageSize next = pageSize cur ∧
    totalPages next = totalPages cur.
Proof.
  intros Hinv Hcur Hr.
  destruct (Inv_paginationState o t cur Hinv Hcur) as [Hdesc Hsize].
  rewrite (goToPage_paginationState o t cur r Hinv Hcur).
  eexists. split; [done|].
  pose proof (f_equal totalPages Hdesc) as Htp.
  cbn [totalPages createPaginationState] in Htp.
  cbn [page pageSize totalPages createPaginationState].
  rewrite <- Htp. split_and!; [lia|done..].
Qed.

(** X2. On a reachable table with pagination, [nextPage()] moves one page
    forward while there is a next page and changes nothing (no state, no
    event) on the last page; [prevPage()] does the same backwards; and
    [prevPage()] after a successful [nextPage()] restores the state. *)
Theorem next_and_prev_page (o : TableOptions) (t : LiteTable)
    (cur : PaginationState) :
  options_ok o → Reachable o t → paginationState (getState t) = Some cur →
  (page cur < totalPages cur →
     (∃ next, paginationState (getState (nextPage t)) = Some next ∧
              page next = page cur + 1) ∧
     getState (prevPage (nextPage t)) = getState t) ∧
  (page cur = totalPages cur → nextPage t = t) ∧
  (1 < page cur →
     ∃ prev, paginationState (getState (prevPage t)) = Some prev ∧
             page prev = page cur - 1) ∧
  (page cur = 1 → prevPage t = t).
Proof.
  intros Hok Hreach Hcur. unfold getState in *.
  pose proof (Reachable_Inv o t Hok Hreach) as Hinv.
  destruct (Inv_flags o t cur Hinv Hcur) as (Hnext & Hprev & Hrange).
  destruct (Inv_paginationState o t cur Hinv Hcur) as [Hdesc Hsize].
  split_and!.
  - intros Hlt.
    assert (nextPage t = goToPage (page cur + 1) t) as ->.
    { unfold nextPage. rewrite Hcur, Hnext. by rewrite (proj2 (Z.ltb_lt _ _) Hlt). }
    destruct (goToPage_page o t cur (page cur + 1) Hinv Hcur ltac:(lia))
      as (next & Hn & Hpage & Hnsize & Htp).
    split; [by exists next|].
    pose proof (Inv_goToPage o (page cur + 1) t Hinv) as Hinv'.
    destruct (Inv_flags o _ next Hinv' Hn) as (_ & Hprev' & _).
    assert (prevPage (goToPage (page cur + 1) t)
            = goToPage (page cur) (goToPage (page cur + 1) t)) as ->.
    { unfold prevPage. rewrite Hn, Hprev', Hpage.
      rewrite (proj2 (Z.ltb_lt _ _)) by lia. f_equal. lia. }
    rewrite (goToPage_state o _ next (page cur) Hinv' Hn). cbn zeta.
    rewrite (goToPage_state o t cur (page cur + 1) Hinv Hcur). cbn zeta.
    cbn [originalData filteredData sortedData sortState searchTerm hiddenColumns].
    assert (pageSize next = pageSize cur ∧ pageSizeOptions next = pageSizeOptions cur)
      as [-> ->].
    { rewrite (goToPage_paginationState o t cur _ Hinv Hcur) in Hn.
      by injection Hn as <-. }
    rewrite <- Hdesc, <- Hcur, <- (Inv_paginatedData o t Hinv).
    by destruct (state t).
  - intros Heq. unfold nextPage. rewrite Hcur, Hnext.
    by rewrite (proj2 (Z.ltb_ge _ _)) by lia.
  - intros Hlt.
    assert (prevPage t = goToPage (page cur - 1) t) as ->.
    { unfold prevPage. rewrite Hcur, Hprev. by rewrite (proj2 (Z.ltb_lt _ _) Hlt). }
    destruct (goToPage_page o t cur (page cur - 1) Hinv Hcur ltac:(lia))
      as (prev & Hp & Hpage & _).
    by exists prev.
  - intros Heq. unfold prevPage. rewrite Hcur, Hprev.
    by rewrite (proj2 (Z.ltb_ge _ _)) by lia.
Qed.

Lemma concat_chunks {A} (l : list A) (k n : nat) :
  (length l ≤ n * k)%nat →
  concat (map (λ i, take k (drop (i * k) l)) (seq 0 n)) = l.
Proof.
  revert l. induction n as [|n IH]; intros l Hlen.
  - destruct l; [done|]. simpl in Hlen. lia.
  - cbn [seq map concat]. rewrite <- seq_shift, map_map.
    rewrite (map_ext _ (λ i, take k (drop (i * k) (drop k l))))
      by (intros i; rewrite drop_drop; do 2 f_equal; lia).
    rewrite IH by (rewrite length_drop; lia).
    change (0 * k)%nat with 0%nat. cbn [drop]. apply take_drop.
Qed.

Lemma getRows_goToPage (o : TableOptions) (t : LiteTable)
    (cur : PaginationState) (r : Z) :
  Inv o t → paginationState (state t) = Some cur →
  1 ≤ r ≤ totalPages cur →
  getRows (goToPage r t) =
    take (Z.to_nat (pageSize cur))
         (drop (Z.to_nat ((r - 1) * pageSize cur)) (sortedData (state t))).
Proof.
  intros Hinv Hcur Hr.
  destruct (Inv_paginationState o t cur Hinv Hcur) as [Hdesc Hsize].
  destruct (goToPage_page o t cur r Hinv Hcur Hr) as (next & Hn & Hpage & Hns & _).
  rewrite (goToPage_paginationState o t cur r Hinv Hcur) in Hn.
  injection Hn as Hn.
  unfold getRows. rewrite (goToPage_state o t cur r Hinv Hcur). cbn zeta.
  cbn [paginatedData]. rewrite Hn.
  rewrite paginateData_stage.
  - unfold Pipeline.paginate_stage. by rewrite Hpage, Hns.
  - rewrite <- Hn. symmetry. apply createPaginationState_idem.
  - by rewrite Hns.
Qed.

(** X3. The pages of a reachable table tile the view: the rows of pages
    1, 2, ..., totalPages, one after the other, are exactly
    [getAllRows()], each row once and in order. *)
Theorem pages_tile_all_rows (o : TableOptions) (t : LiteTable)
    (cur : PaginationState) :
  options_ok o → Reachable o t → paginationState (getState t) = Some cur →
  concat (map (λ p, getRows (goToPage (Z.of_nat p) t))
              (seq 1 (Z.to_nat (totalPages cur))))
  = getAllRows t.
Proof.
  intros Hok Hreach Hcur. unfold getState, getAllRows in *.
  pose proof (Reachable_Inv o t Hok Hreach) as Hinv.
  destruct (Inv_paginationState o t cur Hinv Hcur) as [Hdesc Hsize].
  pose proof (f_equal totalPages Hdesc) as Htp.
  cbn [totalPages createPaginationState] in Htp.
  destruct (ceil_div_bounds (Z.of_nat (length (sortedData (state t))))
              (pageSize cur) Hsize) as [_ Hceil].
  rewrite <- seq_shift, map_map.
  rewrite (map_ext_in _ (λ i, take (Z.to_nat (pageSize cur))
             (drop (i * Z.to_nat (pageSize cur)) (sortedData (state t))))).
  - apply concat_chunks. nia.
  - intros i Hi%in_seq.
    rewrite (getRows_goToPage o t cur _ Hinv Hcur) by lia.
    do 2 f_equal. nia.
Qed.

(** X4. On a reachable table with pagination, [getRows()] holds
    [min(pageSize, rows - (page - 1) * pageSize)] rows, where [rows] counts
    [getAllRows()]: never more than a page, a full page on every page
    but the last, and at least one row whenever the view is not empty. *)
Theorem page_length (o : TableOptions) (t : LiteTable) (cur : PaginationState) :
  options_ok o → Reachable o t → paginationState (getState t) = Some cur →
  let rows := Z.of_nat (length (getAllRows t)) in
  let shown := Z.of_nat (length (getRows t)) in
  shown = Z.min (pageSize cur) (rows - (page cur - 1) * pageSize cur) ∧
  shown ≤ pageSize cur ∧
  (page cur < totalPages cur → shown = pageSize cur) ∧
  (0 < rows → 0 < shown).
Proof.
  intros Hok Hreach Hcur. unfold getState, getAllRows, getRows in *. cbn zeta.
  pose proof (Reachable_Inv o t Hok Hreach) as Hinv.
  destruct (Inv_paginationState o t cur Hinv Hcur) as [Hdesc Hsize].
  destruct (Inv_flags o t cur Hinv Hcur) as (_ & _ & Hrange).
  pose proof (f_equal totalPages Hdesc) as Htp.
  cbn [totalPages createPaginationState] in Htp.
  destruct (ceil_div_bounds (Z.of_nat (length (sortedData (state t))))
              (pageSize cur) Hsize) as [Hlo Hhi].
  rewrite (Inv_paginatedData o t Hinv), Hcur.
  rewrite paginateData_stage by done.
  unfold Pipeline.paginate_stage. rewrite length_take, length_drop.
  set (n := length (sortedData (state t))) in *.
  set (c := ceil_div (Z.of_nat n) (pageSize cur)) in *.
  assert ((page cur - 1) * pageSize cur ≤ Z.of_nat n ∧
          (0 < Z.of_nat n → (page cur - 1) * pageSize cur < Z.of_nat n) ∧
          (page cur < totalPages cur →
             page cur * pageSize cur ≤ Z.of_nat n)) as (Hs1 & Hs2 & Hs3) by nia.
  assert (0 ≤ (page cur - 1) * pageSize cur) by nia.
  split_and!; [lia|lia| |].
  - intros Hlt. specialize (Hs3 Hlt). nia.
  - intros Hpos. specialize (Hs2 Hpos). lia.
Qed.

(** *** Column visibility *)

(** X5. The visibility calls touch the hidden set only: rows, sort, search
    and pagination stay.  [toggleColumn] twice gives the hidden set back;
    after [hideColumn(c)] the visible columns are the previous ones
    without those of id [c], and a second [hideColumn(c)] changes nothing
    and emits nothing; after [showColumn(c)] the id [c] is not hidden. *)
Theorem column_visibility (c : string) (t : LiteTable) :
  (∀ u, u ∈ [toggleColumn c t; showColumn c t; hideColumn c t] →
        getRows u = getRows t ∧ getAllRows u = getAllRows t ∧
        sortState (getState u) = sortState (getState t) ∧
        searchTerm (getState u) = searchTerm (getState t) ∧
        paginationState (getState u) = paginationState (getState t)) ∧
  hiddenColumns (getState (toggleColumn c (toggleColumn c t)))
    = hiddenColumns (getState t) ∧
  getVisibleColumns (hideColumn c t)
    = filter (λ col, id col ≠ c) (getVisibleColumns t) ∧
  hideColumn c (hideColumn c t) = hideColumn c t ∧
  hiddenColumns (getState (showColumn c (hideColumn c t)))
    = hiddenColumns (getState t) ∖ {[ c ]}.
Proof.
  unfold getState. split_and!.
  - intros u Hu. unfold toggleColumn, showColumn, hideColumn in Hu.
    repeat case_decide; set_unfold; by destruct Hu as [->|[->|[->|[]]]].
  - unfold toggleColumn. cbn [state emit with_state hiddenColumns set_hiddenColumns].
    destruct (decide (c ∈ hiddenColumns (state t))) as [Hin|Hout].
    + rewrite decide_False by set_solver.
      apply set_eq. intros x. destruct (decide (x = c)); set_solver.
    + rewrite decide_True by set_solver. set_solver.
  - unfold getVisibleColumns, hideColumn.
    destruct (decide (c ∈ hiddenColumns (state t))) as [Hin|Hout].
    + rewrite list_filter_filter. apply list_filter_iff.
      intros col. set_solver.
    + cbn [state options emit with_state hiddenColumns set_hiddenColumns].
      rewrite list_filter_filter. apply list_filter_iff.
      intros col. set_solver.
  - unfold hideColumn at 1.
    destruct (decide (c ∈ hiddenColumns (state (hideColumn c t)))) as [|Hout];
      [done|].
    exfalso. apply Hout. unfold hideColumn. case_decide; [done|].
    cbn [state emit with_state hiddenColumns set_hiddenColumns]. set_solver.
  - unfold showColumn, hideColumn.
    destruct (decide (c ∈ hiddenColumns (state t))) as [Hin|Hout].
    + rewrite decide_True by done.
      cbn [state emit with_state hiddenColumns set_hiddenColumns]. set_solver.
    + cbn [state emit with_state hiddenColumns set_hiddenColumns].
      rewrite decide_True by set_solver.
      cbn [state emit with_state hiddenColumns set_hiddenColumns]. set_solver.
Qed.

Lemma initially_hidden_acc (cols : list Column) (acc : gset string) (c : string) :
  c ∈ foldl (λ acc col, if default false (hidden col)
                        then acc ∪ {[ id col ]} else acc) acc cols
  ↔ c ∈ acc ∨ ∃ col, col ∈ cols ∧ id col = c ∧ hidden col = Some true.
Proof.
  revert acc. induction cols as [|col cols IH]; intros acc; simpl.
  - set_solver.
  - rewrite IH. destruct (hidden col) as [[]|] eqn:Hh; simpl.
    + split.
      * intros [Hacc|(c' & Hc' & Hid & Hhc)].
        -- apply elem_of_union in Hacc as [Hacc|Hnew]; [by left|].
           apply elem_of_singleton in Hnew. right. exists col.
           split_and!; [by left|done..].
        -- right. exists c'. split_and!; [by right|done..].
      * intros [Hacc|(c' & Hc' & Hid & Hhc)]; [left; set_solver|].
        apply elem_of_cons in Hc' as [->|Hc'].
        -- left. set_solver.
        -- right. by exists c'.
    + split.
      * intros [Hacc|(c' & Hc' & Hid & Hhc)]; [by left|].
        right. exists c'. split_and!; [by right|done..].
      * intros [Hacc|(c' & Hc' & Hid & Hhc)]; [by left|].
        apply elem_of_cons in Hc' as [->|Hc']; [congruence|].
        right. by exists c'.
    + split.
      * intros [Hacc|(c' & Hc' & Hid & Hhc)]; [by left|].
        right. exists c'. split_and!; [by right|done..].
      * intros [Hacc|(c' & Hc' & Hid & Hhc)]; [by left|].
        apply elem_of_cons in Hc' as [->|Hc']; [congruence|].
        right. by exists c'.
Qed.

(** X6. A new table hides exactly the ids of the columns declared
    [hidden: true], and [getVisibleColumns()] lists the columns whose id
    no such column carries. *)
Theorem new_table_hidden_columns (o : TableOptions) (c : string) (col : Column) :
  let t := new_LiteTable o in
  (c ∈ hiddenColumns (getState t) ↔
     ∃ col', col' ∈ columns o ∧ id col' = c ∧ hidden col' = Some true) ∧
  (col ∈ getVisibleColumns t ↔
     col ∈ columns o ∧
     ¬ ∃ col', col' ∈ columns o ∧ id col' = id col ∧ hidden col' = Some true).
Proof.
  cbn zeta. unfold getState, getVisibleColumns, new_LiteTable.
  cbn [state options]. unfold processData, createInitialState, init_options.
  cbn [hiddenColumns opt_columns]. unfold initially_hidden.
  split.
  - rewrite initially_hidden_acc. set_solver.
  - rewrite list_elem_of_filter, initially_hidden_acc. set_solver.
Qed.

(** *** Rows *)

(** X7. A reachable table shows rows of its data and nothing else: the
    filtered rows are a sublist of [originalData], [getAllRows()] is a
    rearrangement of the filtered rows, and [getRows()] is a sublist of
    [getAllRows()]; with an empty search term nothing is filtered out. *)
Theorem rows_come_from_data (o : TableOptions) (t : LiteTable) :
  options_ok o → Reachable o t →
  let st := getState t in
  filteredData st `sublist_of` originalData st ∧
  getAllRows t ≡ₚ filteredData st ∧
  getRows t `sublist_of` getAllRows t ∧
  (searchTerm st = "" → getAllRows t ≡ₚ originalData st).
Proof.
  intros Hok Hreach. cbn zeta. unfold getState, getAllRows, getRows.
  pose proof (Reachable_Inv o t Hok Hreach) as Hinv.
  destruct (Inv_sortedData o t Hinv) as [Hf Hs].
  split_and!.
  - rewrite Hf. apply filterData_sublist.
  - rewrite Hs. apply sortData_perm.
  - rewrite (Inv_paginatedData o t Hinv). unfold paginateData, slice.
    destruct (paginationState (state t)); [|done].
    etrans; [apply sublist_take|apply sublist_drop].
  - intros Hterm. rewrite Hs, sortData_perm, Hf. unfold filterData.
    by rewrite Hterm, orb_true_r.
Qed.

Lemma sortData_length (o : Options) (rows : list JsValue) (s : SortState) :
  length (sortData o rows s) = length rows.
Proof. apply Permutation_length, sortData_perm. Qed.

(** X8. Sorting and then clearing the sort is a round trip: on a reachable
    table that is not sorted, [clearSort()] after any [sortBy(x, d)] gives
    back the state the table had. *)
Theorem clearSort_undoes_sortBy (o : TableOptions) (t : LiteTable)
    (x : string) (d : SortDirection) :
  options_ok o → Reachable o t →
  sortState (getState t) = {| columnId := None; direction := None |} →
  getState (clearSort (sortBy x d t)) = getState t.
Proof.
  intros Hok Hreach Hunsorted. unfold getState in *.
  pose proof (Reachable_Inv o t Hok Hreach) as Hinv.
  pose proof Hinv as (_ & Hfix & _).
  destruct (Inv_sortedData o t Hinv) as [Hf Hs].
  assert (∀ u, options u = options t →
               originalData (state u) = originalData (state t) →
               searchTerm (state u) = searchTerm (state t) →
               paginationState (state u) = paginationState (state t) →
               hiddenColumns (state u) = hiddenColumns (state t) →
               state (clearSort u) = state t) as Hclear.
  { intros u Ho H1 H2 H3 H4. unfold clearSort, reprocess, emit, with_state.
    cbn [state]. rewrite Ho, <- Hfix at 1. by apply processData_ext. }
  unfold sortBy. destruct (find_column (options t) x) as [column|]; [|by apply Hclear].
  assert (∀ s1, state (clearSort (reprocess (Some ev_sort)
                                   (set_sortState s1 (state t)) t)) = state t)
    as Hsorted.
  { intros s1. apply Hclear; try done.
    unfold reprocess, emit, with_state, processData.
    cbn [state paginationState set_sortState originalData searchTerm sortState].
    destruct (paginationState (state t)) as [cur|] eqn:Hcur; [|done].
    destruct (Inv_paginationState o t cur Hinv Hcur) as [Hdesc _].
    rewrite sortData_length, <- Hf.
    rewrite Hs, sortData_length in Hdesc. by rewrite <- Hdesc. }
  destruct (sortable column) as [[]|]; by apply Hsorted || by apply Hclear.
Qed.

(** X9. Looking a row up by its own identity finds it: when the derived
    identities of [originalData] are pairwise distinct,
    [getRowById(getRowId(row, i))] is the row at index [i]. *)
Theorem getRowById_round_trip (t : LiteTable) (i : nat) (row : JsValue) :
  NoDup (imap (λ j r, opt_getRowId (options t) r j) (originalData (getState t))) →
  originalData (getState t) !! i = Some row →
  getRowById t (opt_getRowId (options t) row i) = Some row.
Proof.
  unfold getState, getRowById, find_indexed. intros Hnodup Hrow.
  destruct (find_from _ _ _) as [row'|] eqn:Hfind.
  - apply find_from_Some in Hfind as (j & Hj & Hid & _).
    apply String.eqb_eq in Hid. cbn [Nat.add] in Hid.
    assert (j = i) as ->; [|congruence].
    apply (NoDup_lookup _ j i (opt_getRowId (options t) row i) Hnodup).
    + by rewrite list_lookup_imap, Hj, <- Hid.
    + by rewrite list_lookup_imap, Hrow.
  - pose proof (proj1 (find_from_None _ _ _) Hfind i row Hrow) as Hne.
    cbn [Nat.add] in Hne. by rewrite String.eqb_refl in Hne.
Qed.

(** X10. With the default identity function, rows that carry no string or
    number [id] are named after their index: ["row-" + i] finds exactly
    the row at index [i], and nothing when [i] is out of range. *)
Theorem default_ids_are_indices (o : TableOptions) (i : nat) :
  getRowId o = None →
  Forall (λ row, match get_prop row "id" with
                 | JString _ | JNumber _ => is_object row = false
                 | _ => True
                 end) (data o) →
  getRowById (new_LiteTable o) ("row-" +:+ pretty i) = data o !! i.
Proof.
  intros Hdefault Hrows.
  unfold getRowById, find_indexed, new_LiteTable, init_options.
  cbn [state options opt_getRowId]. rewrite Hdefault. cbn [default].
  unfold processData, createInitialState. cbn [originalData opt_data].
  assert (∀ j row, data o !! j = Some row →
                   String.eqb (generateRowId row j) ("row-" +:+ pretty i)
                   = bool_decide (j = i)) as Hid.
  { intros j row Hj.
    assert (generateRowId row j = "row-" +:+ pretty j) as ->.
    { pose proof (proj1 (Forall_lookup _ _) Hrows j row Hj) as Hrow.
      cbn beta in Hrow. unfold generateRowId.
      destruct (is_object row) eqn:Hobj; [|done].
      destruct (get_prop row "id"); done || congruence. }
    case_bool_decide as Hji.
    - subst. apply String.eqb_refl.
    - apply String.eqb_neq. intros Heq. apply Hji.
      simpl in Heq. injection Heq as Heq. by apply (inj pretty). }
  destruct (data o !! i) as [row|] eqn:Hi.
  - apply find_from_Some. exists i. cbn [Nat.add].
    split_and!; [done| |].
    + rewrite (Hid i row Hi). by apply bool_decide_eq_true_2.
    + intros j other Hlt Hj. rewrite (Hid j other Hj).
      apply bool_decide_eq_false_2. lia.
  - apply find_from_None. intros j other Hj. cbn [Nat.add].
    rewrite (Hid j other Hj). apply bool_decide_eq_false_2.
    intros ->. congruence.
Qed.

(** *** Page size, new data, search results *)

(** X24. [setPageSize(size)] with a positive size, on a reachable table
    with pagination, lands on page 1 with the new size and shows the
    first [size] rows of [getAllRows()], which does not change. *)
Theorem setPageSize_shows_first_rows (o : TableOptions) (t : LiteTable)
    (cur : PaginationState) (size : Z) :
  options_ok o → Reachable o t → paginationState (getState t) = Some cur →
  0 < size →
  getAllRows (setPageSize size t) = getAllRows t ∧
  getRows (setPageSize size t) = take (Z.to_nat size) (getAllRows t) ∧
  ∃ next, paginationState (getState (setPageSize size t)) = Some next ∧
          page next = 1 ∧ pageSize next = size.
Proof.
  intros Hok Hreach Hcur Hsize. unfold getState, getAllRows, getRows in *.
  pose proof (Reachable_Inv o t Hok Hreach) as Hinv.
  destruct (Inv_sortedData o t Hinv) as [Hf Hs].
  unfold setPageSize. rewrite Hcur.
  unfold reprocess, emit, with_state, processData.
  cbn [state sortedData paginatedData paginationState set_paginationState
       originalData searchTerm sortState].
  rewrite <- Hf, <- Hs.
  pose proof (createPaginationState_idem 1 size
                (Z.of_nat (length (sortedData (state t))))
                (Some (pageSizeOptions cur))) as Hidem.
  cbn zeta in Hidem. rewrite Hidem.
  destruct (createPaginationState_first_page size
              (Z.of_nat (length (sortedData (state t))))
              (Some (pageSizeOptions cur))) as (Hpage & Hstart & Hps).
  split_and!; [done| |eexists; split; [done|]; by split].
  rewrite paginateData_stage by (by rewrite ?Hidem, ?Hps).
  unfold Pipeline.paginate_stage. rewrite Hpage, Hps.
  by replace (Z.to_nat ((1 - 1) * size)) with 0%nat by lia.
Qed.

(** X25. [setData(rows)] replaces the data and emits no event.  With
    pagination the page size stays and the page is kept when it still
    exists, else it becomes the last page of the new view. *)
Theorem setData_clamps_page (o : TableOptions) (t : LiteTable)
    (cur : PaginationState) (rows : list JsValue) :
  options_ok o → Reachable o t → paginationState (getState t) = Some cur →
  originalData (getState (setData rows t)) = rows ∧
  emitted (setData rows t) = emitted t ∧
  ∃ next, paginationState (getState (setData rows t)) = Some next ∧
          pageSize next = pageSize cur ∧
          totalRows next = Z.of_nat (length (getAllRows (setData rows t))) ∧
          page next = Z.min (page cur) (totalPages next).
Proof.
  intros Hok Hreach Hcur. unfold getState, getAllRows in *.
  pose proof (Reachable_Inv o t Hok Hreach) as Hinv.
  destruct (Inv_flags o t cur Hinv Hcur) as (_ & _ & Hrange).
  unfold setData, reprocess, with_state, processData.
  cbn [state emitted originalData sortedData paginationState set_originalData
       searchTerm sortState].
  rewrite Hcur. split_and!; [done..|]. eexists. split; [done|].
  cbn [pageSize totalRows page totalPages createPaginationState].
  split_and!; [done..|]. lia.
Qed.

(** X26. Searching keeps exactly the matching rows: on a searchable table
    and for a term that is not empty, a row is in [getAllRows()] after
    [search(term)] if and only if it is a row of [originalData] for which
    the configured predicate holds. *)
Theorem search_keeps_matching_rows (t : LiteTable) (term : string)
    (row : JsValue) :
  opt_searchable (options t) = true → term ≠ "" →
  (row ∈ getAllRows (search term t) ↔
   row ∈ originalData (getState t) ∧
   opt_filterFn (options t) row term (opt_columns (options t)) = true).
Proof.
  intros Hsearchable Hterm. unfold getState, getAllRows, search.
  unfold reprocess, emit, with_state, processData.
  cbn [state sortedData].
  assert (∀ st, originalData st = originalData (state t) → searchTerm st = term →
            (row ∈ sortData (options t)
                     (filterData (options t) (originalData st) (searchTerm st))
                     (sortState st)
             ↔ row ∈ originalData (state t) ∧
               opt_filterFn (options t) row term (opt_columns (options t)) = true))
    as Hgen.
  { intros st -> ->. rewrite sortData_perm. unfold filterData, string_falsy.
    rewrite Hsearchable, (proj2 (String.eqb_neq _ _) Hterm). cbn [negb orb].
    rewrite list_elem_of_filter. tauto. }
  set (st := match paginationState (set_searchTerm term (state t)) with
             | Some ps => _
             | None => _
             end).
  apply (Hgen st); unfold st; cbn [paginationState set_searchTerm];
    by destruct (paginationState (state t)).
Qed.

End WithHost.
End TableMore.

(** ** More about the utility functions *)

Module UtilsMore.
Import Js Types Utils MoreUtils.

Lemma is_prefix_spec (p s : string) :
  is_prefix p s = true ↔ ∃ post, s = p +:+ post.
Proof.
  revert s. induction p as [|a p IH]; intros s; simpl.
  - split; [by exists s|done].
  - destruct s as [|b s]; simpl.
    + split; [done|]. by intros [post ?].
    + rewrite andb_true_iff, IH, Ascii.eqb_eq. split.
      * intros [-> [post ->]]. by exists post.
      * intros [post [= -> ->]]. split; [done|by exists post].
Qed.

(** [s.includes(sub)] holds exactly when [sub] occurs in [s]. *)
Lemma includes_spec (s sub : string) :
  includes s sub = true ↔ ∃ pre post, s = pre +:+ sub +:+ post.
Proof.
  split.
  - induction s as [|c s IH]; simpl.
    + rewrite orb_false_r, is_prefix_spec. intros [post ->]. by exists "", post.
    + rewrite orb_true_iff, is_prefix_spec. intros [[post ->]|Hrest].
      * by exists "", post.
      * destruct (IH Hrest) as (pre & post & ->). by exists (String c pre), post.
  - intros (pre & post & ->). induction pre as [|c pre IH]; simpl.
    + destruct (sub +:+ post) eqn:Heq; simpl;
        (apply orb_true_iff; left; apply is_prefix_spec; by exists post).
    + apply orb_true_iff. by right.
Qed.

Section WithHost.
Context `{Host}.

Lemma any_column_matches_spec (row : JsValue) (lowerSearch : string)
    (cols : list Column) :
  any_column_matches row lowerSearch cols = true ↔
  ∃ col, col ∈ cols ∧ filterable col ≠ Some false ∧
         is_nullish (getCellValue row col) = false ∧
         includes (toLowerCase (to_String (getCellValue row col))) lowerSearch
         = true.
Proof.
  induction cols as [|col cols IH]; simpl.
  - split; [done|]. intros (col & Hcol & _). by apply elem_of_nil in Hcol.
  - assert ((∃ c, c ∈ col :: cols ∧ filterable c ≠ Some false ∧
                  is_nullish (getCellValue row c) = false ∧
                  includes (toLowerCase (to_String (getCellValue row c)))
                           lowerSearch = true)
            ↔ (filterable col ≠ Some false ∧
               is_nullish (getCellValue row col) = false ∧
               includes (toLowerCase (to_String (getCellValue row col)))
                        lowerSearch = true)
              ∨ any_column_matches row lowerSearch cols = true) as ->.
    { rewrite IH. split.
      - intros (c & [->|Hc]%elem_of_cons & Hrest); [by left|].
        right. by exists c.
      - intros [Hcol|(c & Hc & Hrest)].
        + exists col. split; [by left|done].
        + exists c. split; [by right|done]. }
    destruct (filterable col) as [[]|];
      destruct (is_nullish (getCellValue row col));
      destruct (includes _ lowerSearch); naive_solver.
Qed.

(** X11. The default filter keeps a row exactly when the term is empty or
    some column not marked [filterable: false] has a cell, neither null
    nor undefined, whose lower-cased text contains the lower-cased term. *)
Theorem defaultFilterFn_spec (row : JsValue) (term : string) (cols : list Column) :
  defaultFilterFn row term cols = true ↔
  term = "" ∨
  ∃ col, col ∈ cols ∧ filterable col ≠ Some false ∧
         is_nullish (getCellValue row col) = false ∧
         ∃ pre post, toLowerCase (to_String (getCellValue row col))
                     = pre +:+ toLowerCase term +:+ post.
Proof.
  unfold defaultFilterFn, string_falsy.
  destruct (String.eqb_spec term "") as [->|Hne].
  - split; [by left|done].
  - rewrite any_column_matches_spec. split.
    + intros (col & Hcol & Hf & Hn & Hinc). right. exists col.
      split_and!; [done..|]. by apply includes_spec.
    + intros [?|(col & Hcol & Hf & Hn & Hinc)]; [done|]. exists col.
      split_and!; [done..|]. by apply includes_spec.
Qed.

(** X12. For two cell values that are neither null nor undefined,
    descending order is the negation of ascending order, and a missing
    direction compares as descending. *)
Theorem compareValues_direction (a b : JsValue) :
  is_nullish a = false → is_nullish b = false →
  compareValues a b (Some desc) = - compareValues a b (Some asc) ∧
  compareValues a b None = compareValues a b (Some desc).
Proof.
  intros Ha Hb. unfold compareValues, signed. rewrite Ha, Hb.
  destruct a, b; cbn [andb]; split; lia.
Qed.

(** X13. When the host's [localeCompare] is antisymmetric, so is the
    default comparator, on all values and in every direction: swapping the
    operands negates the result. *)
Theorem compareValues_antisymmetric (a b : JsValue) (dir : SortDirection) :
  (∀ x y, localeCompare y x = - localeCompare x y) →
  compareValues b a dir = - compareValues a b dir.
Proof.
  intros Hanti. unfold compareValues, signed.
  destruct a, b; cbn [is_nullish andb]; try lia;
    destruct dir as [[]|]; try lia; rewrite Hanti; lia.
Qed.

End WithHost.

Lemma split_dot_nonempty (path : string) : split_dot path ≠ [].
Proof.
  destruct path as [|c rest]; simpl; [done|].
  destruct (Ascii.eqb c dot); [done|]. by destruct (split_dot rest).
Qed.

Lemma split_dot_app (p q : string) :
  split_dot (p +:+ String dot q) = split_dot p ++ split_dot q.
Proof.
  induction p as [|c p IH]; simpl.
  - done.
  - destruct (Ascii.eqb c dot); [by rewrite IH|].
    rewrite IH. pose proof (split_dot_nonempty p).
    by destruct (split_dot p).
Qed.

Lemma split_dot_plain (key : string) :
  includes key (String dot "") = false → split_dot key = [key].
Proof.
  induction key as [|c key IH]; cbn [includes is_prefix split_dot]; [done|].
  rewrite orb_false_iff, andb_false_iff. intros [[Hc|Hc] Hrest].
  - rewrite Ascii.eqb_sym, Hc. by rewrite IH.
  - by destruct key.
Qed.

(** X14. [getNestedValue] follows a dotted path piece by piece: a path
    [p.q] is the lookup of [q] in the result of [p]; a key without a dot
    is the plain property lookup; and from a value that is not an object
    every path gives undefined. *)
Theorem getNestedValue_paths (obj : JsValue) (p q key : string)
    (fields : list (string * JsValue)) :
  getNestedValue obj (p +:+ "." +:+ q)
    = getNestedValue (getNestedValue obj p) q ∧
  (includes key "." = false →
     getNestedValue (JObject fields) key = lookup_field key fields) ∧
  (is_object obj = false → getNestedValue obj p = JUndefined).
Proof.
  unfold getNestedValue. split_and!.
  - change ("." +:+ q) with (String dot q).
    by rewrite split_dot_app, foldl_app.
  - intros Hplain. by rewrite split_dot_plain.
  - intros Hobj. pose proof (split_dot_nonempty p) as Hne.
    destruct (split_dot p) as [|piece pieces]; [done|].
    cbn [foldl]. unfold nested_step at 2. rewrite Hobj.
    clear. induction pieces as [|x pieces IH]; [done|]. apply IH.
Qed.

End UtilsMore.

(** ** More about the virtual-scroll engine *)

Module VirtualScrollMore.
Import Js VirtualScroll Lifecycles JsFacts.

Section Rows.
Context {TData : Type}.

Lemma ceil_div_sign (a b : Z) :
  0 < b → (0 ≤ a → 0 ≤ ceil_div a b) ∧ (0 < a → 1 ≤ ceil_div a b).
Proof. intros Hb. destruct (ceil_div_bounds a b Hb). split; nia. Qed.

(** X15. For a positive row height, a container height and an overscan
    that are not negative, whatever the data and the scroll offset: the
    range starts at 0 or later and ends at the row count or earlier,
    [offsetY] and [totalHeight] are the start index and the row count
    times the row height, and the rendered slice holds
    [endIndex - startIndex] rows (none when that is negative), never more
    than [visibleRows + 2 * overscan]. *)
Theorem rendered_rows_bounded (rows : list TData) (c : VirtualScrollConfig)
    (top : Z) :
  0 < rowHeight c → 0 ≤ containerHeight c → 0 ≤ default 5 (overscan c) →
  let s := calculateVirtualScroll rows c top in
  let shown := getVirtualRows rows s in
  0 ≤ startIndex s ∧
  endIndex s ≤ Z.of_nat (length rows) ∧
  offsetY s = startIndex s * rowHeight c ∧
  totalHeight s = Z.of_nat (length rows) * rowHeight c ∧
  length shown = Z.to_nat (endIndex s - startIndex s) ∧
  Z.of_nat (length shown) ≤ visibleRows s + 2 * default 5 (overscan c).
Proof.
  intros Hrow Hcont Hover. cbn zeta.
  destruct (ceil_div_sign (containerHeight c) (rowHeight c) Hrow) as [Hv _].
  specialize (Hv Hcont).
  unfold getVirtualRows, calculateVirtualScroll.
  cbn [startIndex endIndex offsetY totalHeight visibleRows].
  set (ov := default 5 (overscan c)) in *.
  set (v := ceil_div (containerHeight c) (rowHeight c)) in *.
  set (start := Z.max 0 (top / rowHeight c - ov)).
  set (n := Z.of_nat (length rows)).
  assert (0 ≤ start) by lia.
  assert (0 ≤ Z.min n (start + v + ov * 2)) by lia.
  rewrite slice_take_drop by done.
  rewrite length_take, length_drop. fold n.
  split_and!; lia.
Qed.

(** X16. A scroll offset above the top is the top: for a negative
    scrollTop (with a positive row height and an overscan that is not
    negative) the range starts at row 0 and the rendered rows are those of
    scrollTop 0. *)
Theorem negative_scroll_is_top (m : VirtualScrollManager TData) (top : Z) :
  0 < rowHeight (config m) → 0 ≤ default 5 (overscan (config m)) → top < 0 →
  startIndex (state (handleScroll top m)) = 0 ∧
  offsetY (state (handleScroll top m)) = 0 ∧
  getVisibleRows (handleScroll top m) = getVisibleRows (handleScroll 0 m).
Proof.
  intros Hrow Hover Htop.
  unfold getVisibleRows, getVirtualRows, handleScroll, calculateVirtualScroll.
  cbn [state data startIndex endIndex offsetY].
  assert (top / rowHeight (config m) < 0) by (apply Z.div_lt_upper_bound; lia).
  rewrite Z.div_0_l by lia.
  rewrite (Z.max_l 0 (top / _ - _)), (Z.max_l 0 (0 - _)) by lia. done.
Qed.

(** X17. [scrollToIndex(i)] brings row [i] into view: on a manager whose
    state fits its data (row height and container height positive,
    overscan not negative), for every index [i] of the data the returned
    scrollTop lies in [0, max(0, totalHeight - containerHeight)], [i] is
    in the computed range, and the row is among [getVisibleRows()]. *)
Theorem scrollToIndex_shows_row (m : VirtualScrollManager TData) (i : nat)
    (row : TData) :
  scroll_consistent m →
  0 < rowHeight (config m) → 0 < containerHeight (config m) →
  0 ≤ default 5 (overscan (config m)) →
  data m !! i = Some row →
  let m' := (scrollToIndex (Z.of_nat i) m).1 in
  let top := (scrollToIndex (Z.of_nat i) m).2 in
  0 ≤ top ≤ Z.max 0 (totalHeight (state m) - containerHeight (config m)) ∧
  scrollTop (state m') = top ∧
  startIndex (state m') ≤ Z.of_nat i < endIndex (state m') ∧
  getVisibleRows m' !! (i - Z.to_nat (startIndex (state m')))%nat = Some row.
Proof.
  intros Hcons Hrow Hcont Hover Hi. cbn zeta.
  pose proof (f_equal totalHeight Hcons) as Htotal.
  cbn [totalHeight calculateVirtualScroll] in Htotal.
  pose proof (lookup_lt_Some _ _ _ Hi) as Hlt.
  destruct (ceil_div_bounds (containerHeight (config m)) (rowHeight (config m)) Hrow)
    as [Hvlo Hvhi].
  unfold scrollToIndex, getVisibleRows, getVirtualRows, handleScroll.
  cbn [fst snd state data]. unfold calculateVirtualScroll.
  cbn [startIndex endIndex scrollTop].
  rewrite Htotal.
  set (rh := rowHeight (config m)) in *.
  set (ch := containerHeight (config m)) in *.
  set (ov := default 5 (overscan (config m))) in *.
  set (v := ceil_div ch rh) in *.
  set (n := Z.of_nat (length (data m))) in *.
  set (top := Z.max 0 (Z.min (Z.of_nat i * rh) (n * rh - ch))).
  assert (0 ≤ top) as Htop0 by lia.
  pose proof (Z.mul_div_le top rh Hrow) as Hq1.
  pose proof (Z.mul_succ_div_gt top rh Hrow) as Hq2.
  set (q := top / rh) in *.
  assert (0 ≤ q) as Hq0 by (apply Z.div_pos; lia).
  assert (Z.of_nat i < n) as Hin by lia.
  assert (q ≤ Z.of_nat i) as Hqi.
  { assert (top ≤ Z.of_nat i * rh) by nia. nia. }
  assert (Z.of_nat i < Z.min n (Z.max 0 (q - ov) + v + ov * 2)) as Hend.
  { apply Z.min_glb_lt; [done|].
    destruct (Z_le_gt_dec (Z.of_nat i * rh) (n * rh - ch)) as [Hfit|Hover'].
    - assert (top = Z.of_nat i * rh) as Htop by nia.
      assert (q = Z.of_nat i) by nia. nia.
    - destruct (Z_le_gt_dec 0 (n * rh - ch)) as [Hpos|Hneg].
      + assert (top = n * rh - ch) as Htop by lia.
        assert (n ≤ q + v) by nia. lia.
      + assert (top = 0) as Htop by lia.
        assert (q = 0) by nia. assert (n < v + 1) by nia. nia. }
  split_and!; [lia|lia|done|lia|done|].
  rewrite slice_take_drop by lia.
  rewrite lookup_take_lt by lia. rewrite lookup_drop.
  rewrite <- Hi. f_equal. lia.
Qed.

End Rows.
End VirtualScrollMore.

(** ** More about the server-side fetch engine *)

Module ServerSideMore.
Import Js ServerSide Notions Lifecycles ServerSideProofs.

Section WithHost.
Context `{Host}.













(** X22. What a completion does to the state.  For a request in flight:
    when its signal has fired, or the rejection is named AbortError, the
    state and the [onError] log stay as they are; a response that is ok
    stores the transformed data and total, clears [loading] and leaves
    [error] as it was; any other outcome (a status that is not ok, a
    rejection) clears [loading], empties the data, zeroes [totalRows],
    stores the error (for a status, "HTTP <status>: <statusText>") and
    calls [onError] once when it is configured.  In every case the
    manager forgets its controller. *)
Theorem completion_outcomes (k : nat) (r : FetchResult) (m : ServerSideManager) :
  existsb (λ q, Nat.eqb (req_signal q) k) (inflight m) = true →
  let m' := settle k r m in
  let failure err :=
    getState m' = {| loading := false; error := Some err; st_data := [];
                     totalRows := 0; lastParams := lastParams (getState m) |} ∧
    onError_calls m' =
      (if c_onError (config m) then [err] else []) ++ onError_calls m in
  let untouched :=
    getState m' = getState m ∧ onError_calls m' = onError_calls m in
  abortController m' = None ∧
  (k ∈ aborted m → untouched) ∧
  (k ∉ aborted m →
     match r with
     | Responded true _ _ json =>
         let d := match c_transformResponse (config m) with
                  | Some f => f json
                  | None => {| data := resp_data json; total := resp_total json |}
                  end in
         getState m' = {| loading := false; error := error (getState m);
                          st_data := data d; totalRows := total d;
                          lastParams := lastParams (getState m) |} ∧
         onError_calls m' = onError_calls m
     | Responded false status statusText _ =>
         failure {| name := "Error";
                    message := "HTTP " +:+ pretty status +:+ ": " +:+ statusText |}
     | Rejected e =>
         if String.eqb (name e) "AbortError" then untouched else failure e
     end).
Proof.
  intros Hin. cbn zeta. unfold getState. split_and!.
  - unfold settle. rewrite Hin.
    by destruct (match after_await _ _ _ with inl _ => _ | inr _ => _ end).
  - intros Hab. by destruct (settle_aborted k r m Hin Hab) as (-> & -> & _).
  - intros Hlive. destruct (settle_live k r m Hin Hlive) as (Hc & _).
    pose proof (f_equal fst Hc) as Hs. pose proof (f_equal snd Hc) as Hl.
    cbn [fst snd] in Hs, Hl. rewrite Hs, Hl. unfold committed.
    destruct r as [[] status statusText json|e]; cbn [after_await].
    + done.
    + cbn [http_error name String.eqb Ascii.eqb]. cbn.
      by destruct (c_onError (config m)).
    + destruct (String.eqb (name e) "AbortError"); [done|].
      by destruct (c_onError (config m)).
Qed.

(** X23. The default request follows the config's toggles: it carries
    [page] and [pageSize] exactly when pagination is on, [sortBy] exactly
    when sorting is on and a sort column is given, [search] exactly when
    filtering is on and the term is not empty; the caller's other keys
    pass through unchanged, and a caller's key that uses one of the five
    reserved names is dropped.  The query string of a GET request holds
    the text of the params that are neither null nor undefined, and
    nothing else. *)
Theorem default_request_follows_toggles (c : Config) (p : ServerRequestParams)
    (key : string) (v : JsValue) (text : string) :
  let params := buildDefaultParams c p in
  ("page" ∈ params.*1 ↔ c_pagination c = true) ∧
  ("pageSize" ∈ params.*1 ↔ c_pagination c = true) ∧
  ("sortBy" ∈ params.*1 ↔ c_sorting c = true ∧ truthy_string (sortBy p) = true) ∧
  ("search" ∈ params.*1 ↔ c_filtering c = true ∧ truthy_string (search p) = true) ∧
  (key ∉ reserved_keys → ((key, v) ∈ params ↔ (key, v) ∈ custom p)) ∧
  ((key, text) ∈ buildUrl c params ↔
     c_method c = GET ∧
     ∃ v', (key, v') ∈ params ∧ is_nullish v' = false ∧ text = to_String v').
Proof.
  cbn zeta.
  assert (∀ k, k ∈ reserved_keys → k ∉ (filter (λ kv, kv.1 ∉ reserved_keys)
                                               (custom p)).*1) as Hres.
  { intros k Hk [[k' v'] [-> [Hout _]%list_elem_of_filter]]%list_elem_of_fmap.
    by apply Hout. }
  assert ("page" ∈ reserved_keys ∧ "pageSize" ∈ reserved_keys ∧
          "sortBy" ∈ reserved_keys ∧ "search" ∈ reserved_keys)
    as (Hr1 & Hr2 & Hr3 & Hr4) by (unfold reserved_keys; set_solver).
  pose proof (Hres _ Hr1). pose proof (Hres _ Hr2).
  pose proof (Hres _ Hr3). pose proof (Hres _ Hr4).
  unfold buildDefaultParams. split_and!.
  - destruct (c_pagination c), (c_sorting c && truthy_string (sortBy p)),
      (c_filtering c && truthy_string (search p));
      rewrite !fmap_app; cbn [fmap list_fmap fst]; set_solver.
  - destruct (c_pagination c), (c_sorting c && truthy_string (sortBy p)),
      (c_filtering c && truthy_string (search p));
      rewrite !fmap_app; cbn [fmap list_fmap fst]; set_solver.
  - rewrite <- andb_true_iff.
    destruct (c_pagination c), (c_sorting c && truthy_string (sortBy p)),
      (c_filtering c && truthy_string (search p));
      rewrite !fmap_app; cbn [fmap list_fmap fst]; set_solver.
  - rewrite <- andb_true_iff.
    destruct (c_pagination c), (c_sorting c && truthy_string (sortBy p)),
      (c_filtering c && truthy_string (search p));
      rewrite !fmap_app; cbn [fmap list_fmap fst]; set_solver.
  - intros Hkey.
    assert (key ≠ "page" ∧ key ≠ "pageSize" ∧ key ≠ "sortBy" ∧
            key ≠ "sortDirection" ∧ key ≠ "search") as (? & ? & ? & ? & ?)
      by (unfold reserved_keys in Hkey; set_solver).
    rewrite !elem_of_app, list_elem_of_filter. cbn [fst].
    destruct (c_pagination c), (c_sorting c && truthy_string (sortBy p)),
      (c_filtering c && truthy_string (search p)); set_solver.
  - unfold buildUrl. destruct (c_method c).
    + rewrite list_elem_of_omap. split.
      * intros ([k' v'] & Hin & Hsome). cbn [fst snd] in Hsome.
        destruct (is_nullish v') eqn:Hn; [done|]. injection Hsome as Hk Ht. subst.
        split; [done|]. by exists v'.
      * intros (_ & v' & Hin & Hn & ->). exists (key, v'). cbn [fst snd].
        by rewrite Hn.
    + split; [by intros ?%elem_of_nil|]. by intros [? _].
Qed.

End WithHost.
End ServerSideMore.

(** ** The further theorems at sample inputs *)

Module MoreInstances.
Import Js Types Utils Table Samples MoreSamples.

#[local] Existing Instance ascii_host.

Lemma fresh_users_reachable : Reachable user_options fresh_users.
Proof. apply reach_new. Defined.

Lemma fresh_users_page : paginationState (getState fresh_users) = Some first_page.
Proof. reflexivity. Defined.

Lemma next_and_prev_page_witness :
  options_ok user_options ∧ Reachable user_options fresh_users ∧
  paginationState (getState fresh_users) = Some first_page ∧
  prevPage fresh_users = fresh_users.
Proof.
  split; [exact Instances.user_options_ok|].
  split; [exact fresh_users_reachable|]. split; [exact fresh_users_page|].
  exact (proj2 (proj2 (proj2 (TableMore.next_and_prev_page
           user_options fresh_users first_page Instances.user_options_ok
           fresh_users_reachable fresh_users_page))) eq_refl).
Defined.

Lemma pages_tile_all_rows_witness :
  options_ok user_options ∧ Reachable user_options fresh_users ∧
  paginationState (getState fresh_users) = Some first_page ∧
  concat (map (λ p, getRows (goToPage (Z.of_nat p) fresh_users))
              (seq 1 (Z.to_nat (totalPages first_page))))
  = getAllRows fresh_users.
Proof.
  split; [exact Instances.user_options_ok|].
  split; [exact fresh_users_reachable|]. split; [exact fresh_users_page|].
  exact (TableMore.pages_tile_all_rows user_options fresh_users first_page
           Instances.user_options_ok fresh_users_reachable fresh_users_page).
Defined.

Lemma page_length_witness :
  options_ok user_options ∧ Reachable user_options fresh_users ∧
  paginationState (getState fresh_users) = Some first_page ∧
  Z.of_nat (length (getRows fresh_users)) ≤ pageSize first_page.
Proof.
  split; [exact Instances.user_options_ok|].
  split; [exact fresh_users_reachable|]. split; [exact fresh_users_page|].
  exact (proj1 (proj2 (TableMore.page_length user_options fresh_users first_page
           Instances.user_options_ok fresh_users_reachable fresh_users_page))).
Defined.

Lemma rows_come_from_data_witness :
  options_ok user_options ∧ Reachable user_options browsed_users ∧
  getRows browsed_users `sublist_of` getAllRows browsed_users.
Proof.
  split; [exact Instances.user_options_ok|].
  split; [exact Instances.browsed_users_reachable|].
  exact (proj1 (proj2 (proj2 (TableMore.rows_come_from_data
           user_options browsed_users Instances.user_options_ok
           Instances.browsed_users_reachable)))).
Defined.

Lemma clearSort_undoes_sortBy_witness :
  options_ok user_options ∧ Reachable user_options fresh_users ∧
  sortState (getState fresh_users) = {| columnId := None; direction := None |} ∧
  getState (clearSort (sortBy "name" None fresh_users)) = getState fresh_users.
Proof.
  split; [exact Instances.user_options_ok|].
  split; [exact fresh_users_reachable|]. split; [reflexivity|].
  exact (TableMore.clearSort_undoes_sortBy user_options fresh_users "name" None
           Instances.user_options_ok fresh_users_reachable eq_refl).
Defined.

Lemma fresh_users_ids_distinct :
  NoDup (imap (λ j r, opt_getRowId (options fresh_users) r j)
              (originalData (getState fresh_users))).
Proof. apply (bool_decide_unpack _). by vm_compute. Defined.

Lemma getRowById_round_trip_witness :
  NoDup (imap (λ j r, opt_getRowId (options fresh_users) r j)
              (originalData (getState fresh_users))) ∧
  originalData (getState fresh_users) !! 2%nat = Some (user 3 "Bob" (JNumber 29)) ∧
  getRowById fresh_users
    (opt_getRowId (options fresh_users) (user 3 "Bob" (JNumber 29)) 2)
  = Some (user 3 "Bob" (JNumber 29)).
Proof.
  split; [exact fresh_users_ids_distinct|]. split; [reflexivity|].
  exact (TableMore.getRowById_round_trip fresh_users 2
           (user 3 "Bob" (JNumber 29)) fresh_users_ids_distinct eq_refl).
Defined.

Lemma anonymous_rows_have_no_id :
  Forall (λ row, match get_prop row "id" with
                 | JString _ | JNumber _ => is_object row = false
                 | _ => True
                 end) (data anonymous_options).
Proof. repeat constructor. Defined.

Lemma default_ids_are_indices_witness :
  getRowId anonymous_options = None ∧
  Forall (λ row, match get_prop row "id" with
                 | JString _ | JNumber _ => is_object row = false
                 | _ => True
                 end) (data anonymous_options) ∧
  getRowById (new_LiteTable anonymous_options) ("row-" +:+ pretty 1%nat)
  = data anonymous_options !! 1%nat.
Proof.
  split; [reflexivity|]. split; [exact anonymous_rows_have_no_id|].
  exact (TableMore.default_ids_are_indices anonymous_options 1 eq_refl
           anonymous_rows_have_no_id).
Defined.

Lemma compareValues_direction_witness :
  is_nullish (JNumber 3) = false ∧ is_nullish (JNumber 5) = false ∧
  compareValues (JNumber 3) (JNumber 5) (Some desc)
  = - compareValues (JNumber 3) (JNumber 5) (Some asc).
Proof.
  split; [reflexivity|]. split; [reflexivity|].
  exact (proj1 (UtilsMore.compareValues_direction (JNumber 3) (JNumber 5)
                  eq_refl eq_refl)).
Defined.

Lemma compare_strings_antisym (x y : string) :
  compare_strings y x = - compare_strings x y.
Proof.
  unfold compare_strings. rewrite (String.compare_antisym x y).
  by destruct (String.compare y x).
Defined.

Lemma compareValues_antisymmetric_witness :
  (∀ x y, localeCompare y x = - localeCompare x y) ∧
  compareValues (JString "b") (JString "A") (Some asc)
  = - compareValues (JString "A") (JString "b") (Some asc).
Proof.
  split; [exact compare_strings_antisym|].
  exact (UtilsMore.compareValues_antisymmetric (JString "A") (JString "b")
           (Some asc) compare_strings_antisym).
Defined.

Lemma setPageSize_shows_first_rows_witness :
  options_ok user_options ∧ Reachable user_options fresh_users ∧
  paginationState (getState fresh_users) = Some first_page ∧ 0 < 3 ∧
  getRows (setPageSize 3 fresh_users) = take 3 (getAllRows fresh_users).
Proof.
  split; [exact Instances.user_options_ok|].
  split; [exact fresh_users_reachable|]. split; [exact fresh_users_page|].
  split; [lia|].
  exact (proj1 (proj2 (TableMore.setPageSize_shows_first_rows
           user_options fresh_users first_page 3 Instances.user_options_ok
           fresh_users_reachable fresh_users_page ltac:(lia)))).
Defined.

Lemma setData_clamps_page_witness :
  options_ok user_options ∧ Reachable user_options fresh_users ∧
  paginationState (getState fresh_users) = Some first_page ∧
  originalData (getState (setData twins fresh_users)) = twins ∧
  emitted (setData twins fresh_users) = emitted fresh_users.
Proof.
  split; [exact Instances.user_options_ok|].
  split; [exact fresh_users_reachable|]. split; [exact fresh_users_page|].
  pose proof (TableMore.setData_clamps_page user_options fresh_users first_page
                twins Instances.user_options_ok fresh_users_reachable
                fresh_users_page) as (Hdata & Hlog & _).
  split; [exact Hdata|exact Hlog].
Defined.

Lemma search_keeps_matching_rows_witness :
  opt_searchable (options fresh_users) = true ∧ "e" ≠ "" ∧
  (user 5 "Eve" (JNumber 35) ∈ getAllRows (search "e" fresh_users) ↔
   user 5 "Eve" (JNumber 35) ∈ originalData (getState fresh_users) ∧
   opt_filterFn (options fresh_users) (user 5 "Eve" (JNumber 35)) "e"
     (opt_columns (options fresh_users)) = true).
Proof.
  split; [reflexivity|]. split; [discriminate|].
  exact (TableMore.search_keeps_matching_rows fresh_users "e"
           (user 5 "Eve" (JNumber 35)) eq_refl ltac:(discriminate)).
Defined.

Lemma rendered_rows_bounded_witness :
  0 < VirtualScroll.rowHeight scroll_config ∧
  0 ≤ VirtualScroll.containerHeight scroll_config ∧
  0 ≤ default 5 (VirtualScroll.overscan scroll_config) ∧
  VirtualScroll.endIndex
    (VirtualScroll.calculateVirtualScroll ["a"; "b"; "c"]%string scroll_config 100)
  ≤ Z.of_nat (length ["a"; "b"; "c"]%string).
Proof.
  split; [reflexivity|]. split; [discriminate|]. split; [discriminate|].
  exact (proj1 (proj2 (VirtualScrollMore.rendered_rows_bounded
           ["a"; "b"; "c"]%string scroll_config 100
           eq_refl ltac:(discriminate) ltac:(discriminate)))).
Defined.

Lemma negative_scroll_is_top_witness :
  0 < VirtualScroll.rowHeight (VirtualScroll.config letters) ∧
  0 ≤ default 5 (VirtualScroll.overscan (VirtualScroll.config letters)) ∧
  -100 < 0 ∧
  VirtualScroll.getVisibleRows (VirtualScroll.handleScroll (-100) letters)
  = VirtualScroll.getVisibleRows (VirtualScroll.handleScroll 0 letters).
Proof.
  split; [reflexivity|]. split; [discriminate|]. split; [reflexivity|].
  exact (proj2 (proj2 (VirtualScrollMore.negative_scroll_is_top letters (-100)
           eq_refl ltac:(discriminate) eq_refl))).
Defined.

Lemma scrollToIndex_shows_row_witness :
  Lifecycles.scroll_consistent letters ∧
  0 < VirtualScroll.rowHeight (VirtualScroll.config letters) ∧
  0 < VirtualScroll.containerHeight (VirtualScroll.config letters) ∧
  0 ≤ default 5 (VirtualScroll.overscan (VirtualScroll.config letters)) ∧
  VirtualScroll.data letters !! 2%nat = Some "c"%string ∧
  VirtualScroll.scrollTop
    (VirtualScroll.state (VirtualScroll.scrollToIndex 2 letters).1)
  = (VirtualScroll.scrollToIndex 2 letters).2.
Proof.
  split; [reflexivity|]. split; [reflexivity|]. split; [reflexivity|].
  split; [discriminate|]. split; [reflexivity|].
  exact (proj1 (proj2 (VirtualScrollMore.scrollToIndex_shows_row letters 2
           "c"%string eq_refl eq_refl eq_refl ltac:(discriminate) eq_refl))).
Defined.

Import ServerSide.






Lemma completion_outcomes_witness :
  existsb (λ q, Nat.eqb (req_signal q) 0)
          (inflight (fetchData (params_of_page 1) fresh_manager)) = true ∧
  abortController
    (settle 0 (ok_response []) (fetchData (params_of_page 1) fresh_manager))
  = None.
Proof.
  split; [reflexivity|].
  exact (proj1 (ServerSideMore.completion_outcomes 0 (ok_response [])
                  (fetchData (params_of_page 1) fresh_manager) eq_refl)).
Defined.

Example nested_value_of_user :
  MoreUtils.getNestedValue
    (JObject [("user", JObject [("name", JString "John")])]) "user.name"
  = JString "John" ∧
  MoreUtils.getNestedValue
    (JObject [("user", JObject [("name", JString "John")])]) "user.age.value"
  = JUndefined ∧
  MoreUtils.split_dot "a..b" = ["a"; ""; "b"]%string.
Proof. by vm_compute. Qed.

Example default_request_of_page :
  buildUrl (config fresh_manager)
    (buildDefaultParams (config fresh_manager)
       {| page := 2; pageSize := 10; sortBy := Some "name"%string;
          sortDirection := None; search := Some ""%string;
          custom := [("page", JNumber 9); ("tenant", JString "acme")] |})
  = [("page", "2"); ("pageSize", "10"); ("sortBy", "name");
     ("tenant", "acme")]%string.
Proof. by vm_compute. Qed.

End MoreInstances.
